(** * A shallow embedding of the [injector] dependency-injection registry

    The development follows [include/injector/injector.hpp],
    [include/injector/type_id.hpp] and
    [include/injector/detail/argument_resolver.hpp].  Template
    parameters become ordinary arguments of type [CppType]; the member
    functions of [Injector] become state transformers over a [State]
    that holds the process-wide type-id counter, the binding table
    [m_Registrations], the provider objects the table owns, and the
    part of the program the producers can touch (the heap of shared
    objects and the variables captured by the callables).

    The headers [detail/factory.hpp], [detail/storage.hpp],
    [detail/provider.hpp], [traits.hpp] and [errors.hpp] are not part
    of the sources at hand; what the registry needs of them is modelled
    from the specification and marked where it is defined.

    A callable handed to the registry is a function of the world that
    returns a handle: it does not call back into the registry, and an
    exception escaping a callable is outside the model.  What the
    compiler rejects (an overload that cannot be instantiated, an
    ambiguous call, a failed [static_assert]) has no outcome, like a
    recursion deeper than the fuel. *)

From stdpp Require Import base option list gmap strings.

(** ** C++ types *)

(** The types that can instantiate the templates.  [RemoveReference T]
    and [RemoveConst T] are the trait classes
    [std::remove_reference<T>] and [std::remove_const<T>] themselves
    (class types), not their member [::type]. *)
Inductive CppType : Type :=
  | Class (name : string)
  | SharedPtr (T : CppType)
  | Vector (T : CppType)
  | Const (T : CppType)
  | LRef (T : CppType)
  | Pointer (T : CppType)
  | RemoveReference (T : CppType)
  | RemoveConst (T : CppType).

#[global] Instance CppType_eq_dec : EqDecision CppType.
Proof. solve_decision. Defined.

(** The number of type constructors in a type. *)
Fixpoint type_size (T : CppType) : nat :=
  match T with
  | Class _ => 1
  | SharedPtr X | Vector X | Const X | LRef X | Pointer X
  | RemoveReference X | RemoveConst X => S (type_size X)
  end.

Module Traits.

(** [std::is_reference_v], [std::is_const_v], [std::is_pointer_v]. *)
Definition is_reference (T : CppType) : bool :=
  match T with LRef _ => true | _ => false end.

Definition is_const (T : CppType) : bool :=
  match T with Const _ => true | _ => false end.

Definition is_pointer (T : CppType) : bool :=
  match T with Pointer _ => true | _ => false end.

(** [std::is_same_v<T, T&>]: by reference collapsing [T&] is [T]
    exactly when [T] is an lvalue reference. *)
Definition add_lvalue_reference (T : CppType) : CppType :=
  match T with LRef _ => T | _ => LRef T end.

Definition is_same (T U : CppType) : bool := bool_decide (T = U).

(** Modelled from the spec: [traits.hpp] is not part of the sources.
    [is_vector_v<T>] and [is_shared_v<T>] recognise the
    instantiations of [std::vector] and [std::shared_ptr], the
    "ordered-sequence-of" and "shared-handle-of" retrieval forms. *)
Definition is_vector (T : CppType) : bool :=
  match T with Vector _ => true | _ => false end.

Definition is_shared (T : CppType) : bool :=
  match T with SharedPtr _ => true | _ => false end.

(** The member types [T::element_type] and [T::value_type]. *)
Definition element_type (T : CppType) : option CppType :=
  match T with SharedPtr E => Some E | _ => None end.

Definition value_type (T : CppType) : option CppType :=
  match T with Vector V => Some V | _ => None end.

End Traits.

(** ** Values, objects and the producers' world *)

(** A [std::shared_ptr]: [None] is the empty handle, [Some a] owns the
    object at address [a]. *)
Definition shared_ptr : Type := option nat.

Definition is_null (p : shared_ptr) : bool :=
  match p with None => true | Some _ => false end.

(** What a retrieval returns: a handle, or a vector of handles. *)
Inductive Value : Type :=
  | VShared (p : shared_ptr)
  | VVector (ps : list shared_ptr).

(** An object built by [std::make_shared<T>(args...)]. *)
Record Object : Type := mkObject {
  object_type : CppType;
  object_args : list Value
}.

(** The part of the program state a producer can see: the heap of
    shared objects (an object's address is its position) and the
    variables [U] captured by the callables. *)
Record World (U : Type) : Type := mkWorld {
  heap : list Object;
  user : U
}.
Arguments mkWorld {U} _ _.
Arguments heap {U} _.
Arguments user {U} _.

(** [std::make_shared<T>(args...)]. *)
Definition make_shared {U} (T : CppType) (args : list Value) (w : World U)
  : shared_ptr * World U :=
  (Some (length (heap w)), mkWorld (heap w ++ [mkObject T args]) (user w)).

(** A [std::function<std::shared_ptr<T>()>]: it returns a handle,
    possibly empty, and may change what it captured and allocate. *)
Definition Producer (U : Type) : Type := World U -> shared_ptr * World U.

(** ** Factories, storages and providers *)

(** The three factories of [detail/factory.hpp], named as
    [injector.hpp] uses them. *)
Inductive Factory (U : Type) : Type :=
  | ConstructorFactory (T : CppType)
  | FunctionFactory (T : CppType) (fn : Producer U)
  | ConstantFactory (T : CppType) (data : shared_ptr).
Arguments ConstructorFactory {U} _.
Arguments FunctionFactory {U} _ _.
Arguments ConstantFactory {U} _ _.

(** The storages of [detail/storage.hpp].  [InstanceStorage] owns a
    factory; [SingletonInstanceStorage] additionally owns the cache
    slot [m_Instance], [None] until the first retrieval has stored
    its result there. *)
Inductive Storage (U : Type) : Type :=
  | InstanceStorage (factory : Factory U)
  | SingletonInstanceStorage (factory : Factory U) (m_Instance : option shared_ptr).
Arguments InstanceStorage {U} _.
Arguments SingletonInstanceStorage {U} _ _.

(** The providers of [detail/provider.hpp]. *)
Inductive ComponentProvider (U : Type) : Type :=
  | NonCastingComponentProvider (T : CppType) (storage : Storage U)
  | CastingComponentProvider (Base Derived : CppType) (storage : Storage U).
Arguments NonCastingComponentProvider {U} _ _.
Arguments CastingComponentProvider {U} _ _ _.

Definition provider_storage {U} (p : ComponentProvider U) : Storage U :=
  match p with
  | NonCastingComponentProvider _ st => st
  | CastingComponentProvider _ _ st => st
  end.

Definition with_storage {U} (p : ComponentProvider U) (st : Storage U)
  : ComponentProvider U :=
  match p with
  | NonCastingComponentProvider T _ => NonCastingComponentProvider T st
  | CastingComponentProvider B D _ => CastingComponentProvider B D st
  end.

Definition storage_factory {U} (st : Storage U) : Factory U :=
  match st with
  | InstanceStorage f => f
  | SingletonInstanceStorage f _ => f
  end.

(** ** Program state *)

(** [s_LastIndex] is the counter of [TypeId]; [static_id T] is the
    function-local static of [TypeId::id<T>], [None] until the first
    call initialises it.  [m_Registrations] maps a type id to the
    handles of its providers in registration order; a handle is the
    position of the provider object in [provider_objects], which
    stands for the objects the [std::unique_ptr]s of the table own. *)
Record State (U : Type) : Type := mkState {
  s_LastIndex : nat;
  static_id : CppType -> option nat;
  m_Registrations : gmap nat (list nat);
  provider_objects : list (ComponentProvider U);
  world : World U
}.
Arguments mkState {U} _ _ _ _ _.
Arguments s_LastIndex {U} _.
Arguments static_id {U} _ _.
Arguments m_Registrations {U} _.
Arguments provider_objects {U} _.
Arguments world {U} _.

Definition set_world {U} (w : World U) (s : State U) : State U :=
  mkState (s_LastIndex s) (static_id s) (m_Registrations s) (provider_objects s) w.

Definition set_provider_objects {U} (ps : list (ComponentProvider U)) (s : State U)
  : State U :=
  mkState (s_LastIndex s) (static_id s) (m_Registrations s) ps (world s).

(** A program start: no type has an id, nothing is registered. *)
Definition initial_state {U} (w : World U) : State U :=
  mkState 0 (fun _ => None) ∅ [] w.

(** ** Type identity ([type_id.hpp]) *)

(** [type_id<T>()]: the first call for [T] stores
    [s_LastIndex.fetch_add(1)] in the static of [T]; every call returns
    the stored value.  The counter is a [std::size_t]; a program has
    far fewer types than it has values, so it is a [nat] here. *)
Definition type_id {U} (T : CppType) (s : State U) : nat * State U :=
  match static_id s T with
  | Some id => (id, s)
  | None =>
      (s_LastIndex s,
       mkState (S (s_LastIndex s))
               (fun X => if decide (X = T) then Some (s_LastIndex s) else static_id s X)
               (m_Registrations s) (provider_objects s) (world s))
  end.

(** ** Results and the computation monad *)

(** [errors.hpp] declares the one exception the registry throws. *)
Inductive Exception : Type := ComponentCreationException.

Inductive Result (A : Type) : Type :=
  | Ok (a : A)
  | Throw (e : Exception).
Arguments Ok {A} _.
Arguments Throw {A} _.

(** A member function run on a state either finishes, normally or by
    an exception, in a new state, or has no outcome: [None] stands for
    a call the compiler rejects and for a recursion that needs more
    stack than the fuel provides. *)
Definition M (U A : Type) : Type := State U -> option (Result A * State U).

Definition ret {U A} (a : A) : M U A := fun s => Some (Ok a, s).

Definition throw {U A} (e : Exception) : M U A := fun s => Some (Throw e, s).

Definition rejected {U A} : M U A := fun _ => None.

Definition bind {U A B} (m : M U A) (k : A -> M U B) : M U B :=
  fun s =>
    match m s with
    | Some (Ok a, s') => k a s'
    | Some (Throw e, s') => Some (Throw e, s')
    | None => None
    end.

Definition lift {U A} (f : State U -> A * State U) : M U A :=
  fun s => let '(a, s') := f s in Some (Ok a, s').

Declare Scope inj_scope.
Delimit Scope inj_scope with inj.
Notation "x <- m ;; k" := (bind m (fun x => k))
  (at level 100, m at next level, right associativity) : inj_scope.
Open Scope inj_scope.

Fixpoint for_each {U A B} (f : A -> M U B) (l : list A) : M U (list B) :=
  match l with
  | [] => ret []
  | a :: l' => b <- f a ;; bs <- for_each f l' ;; ret (b :: bs)
  end.

(** ** The registry ([injector.hpp]) *)

Import Traits.

Section Injector.

Context {U : Type}.

(** Static facts about the program's classes.  [constructor T] is the
    parameter list of the constructor the default-construction factory
    uses for [T] ([None]: [T] has no usable constructor);
    [is_base_of Base Derived] is [std::is_base_of_v<Base, Derived>]. *)
Variable constructor : CppType -> option (list CppType).
Variable is_base_of : CppType -> CppType -> bool.

Definition lift_world {A} (f : World U -> A * World U) : M U A :=
  fun s => let '(a, w) := f (world s) in Some (Ok a, set_world w s).

Definition registrations : M U (gmap nat (list nat)) :=
  fun s => Some (Ok (m_Registrations s), s).

Definition load_provider (h : nat) : M U (ComponentProvider U) :=
  fun s =>
    match provider_objects s !! h with
    | Some p => Some (Ok p, s)
    | None => None
    end.

(** [m_Instance = value] inside provider [h]; only a singleton storage
    has the member. *)
Definition store_instance (h : nat) (v : shared_ptr) : M U unit :=
  fun s =>
    match provider_objects s !! h with
    | Some p =>
        match provider_storage p with
        | SingletonInstanceStorage f _ =>
            let st := SingletonInstanceStorage f (Some v) in
            Some (Ok tt,
                  set_provider_objects (<[h := with_storage p st]> (provider_objects s)) s)
        | InstanceStorage _ => None
        end
    | None => None
    end.

Definition static_assert (b : bool) : M U unit :=
  if b then ret tt else rejected.

(** *** Overload selection for [get] *)

Inductive Overload : Type :=
  | GetPlain | GetShared | GetConstReference | GetVector | GetVectorShared.

(** The [std::enable_if_t] condition of each overload, as written. *)
Definition enabled (o : Overload) (T : CppType) : bool :=
  match o with
  | GetPlain => negb (is_vector T) && negb (is_shared T)
  | GetShared => negb (is_vector T) && is_shared T
  | GetConstReference => is_reference T && is_const (RemoveReference T)
  | GetVector =>
      match value_type T with
      | Some V => is_vector T && negb (is_shared V)
      | None => false
      end
  | GetVectorShared =>
      match value_type T with
      | Some V => is_vector T && is_shared V
      | None => false
      end
  end.

Definition overloads : list Overload :=
  [GetPlain; GetShared; GetConstReference; GetVector; GetVectorShared].

Definition viable (T : CppType) : list Overload :=
  filter (fun o => enabled o T = true) overloads.

(** The declared return type of each overload. *)
Definition return_type (o : Overload) (T : CppType) : option CppType :=
  match o with
  | GetPlain => Some (SharedPtr T)
  | GetShared => E ← element_type T; Some (SharedPtr E)
  | GetConstReference => Some (SharedPtr (RemoveReference (RemoveConst T)))
  | GetVector => V ← value_type T; Some (Vector (SharedPtr V))
  | GetVectorShared => V ← value_type T; Some (Vector V)
  end.

(** The type of the expression [get<T>()]: defined when exactly one
    overload is viable. *)
Definition get_type (T : CppType) : option CppType :=
  match viable T with
  | [o] => return_type o T
  | _ => None
  end.

(** [return get<X>();] in a function declared to return [R]: the
    type of the expression must be [R] (conversions between distinct
    handle or vector types are not modelled). *)
Definition returns (X R : CppType) : bool :=
  bool_decide (get_type X = Some R).

(** *** Retrieval, with the recursive call left open *)

Section Resolution.

(** [get_rec P] is [m_Injector->get<P>()] one stack frame deeper. *)
Variable get_rec : CppType -> M U Value.

(** [ConstructorArgumentResolver<T>::operator ConstructorArgument()]:
    the conversion is enabled unless the argument type is [T], an
    lvalue reference or a pointer, and returns
    [m_Injector->get<ConstructorArgument>()]. *)
Definition injectable (T P : CppType) : bool :=
  negb (is_same P T) && negb (is_same P (add_lvalue_reference P)) && negb (is_pointer P).

Definition resolve_argument (T P : CppType) : M U Value :=
  if injectable T P && returns P P then get_rec P else rejected.

(** Modelled from the spec: [detail/factory.hpp] is not part of the
    sources.  The default-construction factory obtains a value for
    each constructor parameter through the argument resolver, in
    order, and constructs the object with them; the function factory
    invokes the callable and returns whatever it returns; the constant
    factory returns the supplied handle unchanged. *)
Definition factory_build (f : Factory U) : M U shared_ptr :=
  match f with
  | ConstructorFactory T =>
      match constructor T with
      | Some params =>
          args <- for_each (resolve_argument T) params ;;
          lift_world (make_shared T args)
      | None => rejected
      end
  | FunctionFactory _ fn => lift_world fn
  | ConstantFactory _ data => ret data
  end.

(** Modelled from the spec: [detail/storage.hpp] is not part of the
    sources.  A transient storage invokes its factory on every call
    and never caches.  A singleton storage invokes the factory on the
    first call, stores the result in the cache slot and returns it;
    later calls return the cached value, empty or not, without
    invoking the factory. *)
Definition storage_get (h : nat) (st : Storage U) : M U shared_ptr :=
  match st with
  | InstanceStorage f => factory_build f
  | SingletonInstanceStorage f (Some v) => ret v
  | SingletonInstanceStorage f None =>
      v <- factory_build f ;;
      _ <- store_instance h v ;;
      ret v
  end.

(** Modelled from the spec: [detail/provider.hpp] is not part of the
    sources.  Both providers return the result of their storage; the
    upcast of the casting provider keeps the object and its address. *)
Definition provider_get (h : nat) : M U shared_ptr :=
  p <- load_provider h ;;
  storage_get h (provider_storage p).

(** [Injector::get_unchecked<T>()].  [back()] of an empty vector has
    no defined behaviour. *)
Definition get_unchecked (T : CppType) : M U shared_ptr :=
  id <- lift (type_id T) ;;
  regs <- registrations ;;
  match regs !! id with
  | Some providers =>
      match last providers with
      | Some last_provider => provider_get last_provider
      | None => rejected
      end
  | None => factory_build (ConstructorFactory T)
  end.

(** [get<T>], first overload.  [std::shared_ptr<T>] cannot be
    instantiated at a reference type. *)
Definition get_plain (T : CppType) : M U shared_ptr :=
  if is_reference T then rejected
  else
    value <- get_unchecked T ;;
    if is_null value then throw ComponentCreationException else ret value.

(** [get<std::vector<T>>], fourth overload, at [instance_type]. *)
Definition get_vector (instance_type : CppType) : M U (list shared_ptr) :=
  id <- lift (type_id instance_type) ;;
  regs <- registrations ;;
  match regs !! id with
  | Some providers => for_each provider_get providers
  | None => ret []
  end.

(** A delegating overload: [return get<X>();] declared to return [R]. *)
Definition delegate (X R : CppType) : M U Value :=
  if returns X R then get_rec X else rejected.

(** The overload set [get<T>()]. *)
Definition get_with (T : CppType) : M U Value :=
  match viable T with
  | [GetPlain] => value <- get_plain T ;; ret (VShared value)
  | [GetShared] =>
      match element_type T with
      | Some E => delegate E (SharedPtr E)
      | None => rejected
      end
  | [GetConstReference] =>
      delegate (RemoveReference (RemoveConst T))
               (SharedPtr (RemoveReference (RemoveConst T)))
  | [GetVector] =>
      match value_type T with
      | Some V => instances <- get_vector V ;; ret (VVector instances)
      | None => rejected
      end
  | [GetVectorShared] =>
      match value_type T with
      | Some V =>
          match element_type V with
          | Some E => delegate (Vector E) (Vector V)
          | None => rejected
          end
      | None => rejected
      end
  | _ => rejected
  end.

End Resolution.

(** [get<T>()] with a bound on the depth of nested retrievals. *)
Fixpoint get (fuel : nat) (T : CppType) : M U Value :=
  match fuel with
  | 0 => rejected
  | S n => get_with (get n) T
  end.

(** [Injector::contains<T>()]. *)
Definition contains (T : CppType) : M U bool :=
  id <- lift (type_id T) ;;
  regs <- registrations ;;
  ret (bool_decide (is_Some (regs !! id))).

(** *** Registration *)

(** [m_Registrations[id].push_back(std::move(provider))]. *)
Definition push_back_provider (id : nat) (p : ComponentProvider U) : M U unit :=
  fun s =>
    let h := length (provider_objects s) in
    let providers := default [] (m_Registrations s !! id) in
    Some (Ok tt,
          mkState (s_LastIndex s) (static_id s)
                  (<[id := providers ++ [h]]> (m_Registrations s))
                  (provider_objects s ++ [p]) (world s)).

(** [add_registration<T>(storage)]. *)
Definition add_registration (T : CppType) (storage : Storage U) : M U unit :=
  id <- lift (type_id T) ;;
  push_back_provider id (NonCastingComponentProvider T storage).

(** [add_registration<Base, Derived>(storage)]. *)
Definition add_registration_derived (Base Derived : CppType) (storage : Storage U)
  : M U unit :=
  _ <- static_assert (is_base_of Base Derived) ;;
  id <- lift (type_id Base) ;;
  push_back_provider id (CastingComponentProvider Base Derived storage).

(** *** Overload resolution inside the registration interface

    The member functions below call the templates [add_registration],
    [add] and [add_singleton] with explicit template arguments.  Each
    of the three names has a one-parameter template [<T>] and a
    two-parameter template [<Base, Derived>] whose function parameter
    has the same form; [Base] occurs in no function parameter.  A call
    with ONE explicit argument is therefore a call of the
    one-parameter template and, when [Derived] can be deduced from the
    function argument, of the two-parameter template with [Base := T]
    as well: the conversions are then the same and neither template is
    more specialised, so the call is ambiguous.  A call with two
    explicit arguments names the two-parameter template only. *)

(** The templates viable for a call, by their number of template
    parameters; the call is well formed with exactly one. *)
Definition resolves (candidates : list nat) : bool :=
  match candidates with
  | [_] => true
  | _ => false
  end.

(** [add_registration<T>(std::move(storage))].  The parameter of both
    templates is a [std::unique_ptr<InstanceStorage<X>>&&]: [Derived]
    is deduced from a [std::unique_ptr<InstanceStorage<T>>], not from
    a [std::unique_ptr<SingletonInstanceStorage<T>>], which only
    converts to the parameter of the one-parameter template. *)
Definition add_registration_candidates (storage : Storage U) : list nat :=
  match storage with
  | InstanceStorage _ => [1; 2]
  | SingletonInstanceStorage _ _ => [1]
  end.

(** How a callable reaches [add<T>(fn)] or [add_singleton<T>(fn)]: as
    the closure a client writes, or as the
    [const std::function<std::shared_ptr<T>()>&] that is the parameter
    [fn] of a [try_] form. *)
Inductive Callable : Type := Closure | StdFunction.

(** [add<T>(fn)] and [add_singleton<T>(fn)].  The parameter of both
    templates is a [const std::function<std::shared_ptr<X>()>&]:
    [Derived] is deduced from a [std::function], not from a closure,
    which only converts. *)
Definition callable_candidates (fn : Callable) : list nat :=
  match fn with
  | Closure => [1]
  | StdFunction => [1; 2]
  end.

(** *** The registration interface

    The overloads of [add], [try_add], [add_singleton] and
    [try_add_singleton], in the order of the header.  The suffix
    [_derived] marks the [<Base, Derived>] form, [_fn] the form taking
    a callable, [_data] the form taking an object.  A function with an
    ambiguous call in its body cannot be instantiated, whichever
    branch would run: the check comes first, as a [static_assert].
    The forms taking a callable are the calls with a closure. *)

(** [add<T>()] cannot be instantiated: its call of [add_registration]
    is ambiguous. *)
Definition add (T : CppType) : M U unit :=
  let storage := InstanceStorage (ConstructorFactory T) in
  _ <- static_assert (resolves (add_registration_candidates storage)) ;;
  add_registration T storage.

(** Instantiating a [try_] form instantiates the unconditional form it
    calls, [static_assert] included, whichever branch runs. *)
Definition try_add (T : CppType) : M U unit :=
  _ <- static_assert
         (resolves (add_registration_candidates
                      (InstanceStorage (ConstructorFactory T)))) ;;
  present <- contains T ;;
  if negb present then add T else ret tt.

Definition add_derived (Base Derived : CppType) : M U unit :=
  add_registration_derived Base Derived (InstanceStorage (ConstructorFactory Derived)).

Definition try_add_derived (Base Derived : CppType) : M U unit :=
  _ <- static_assert (is_base_of Base Derived) ;;
  present <- contains Base ;;
  if negb present then add_derived Base Derived else ret tt.

Definition add_singleton (T : CppType) : M U unit :=
  let storage := SingletonInstanceStorage (ConstructorFactory T) None in
  _ <- static_assert (resolves (add_registration_candidates storage)) ;;
  add_registration T storage.

Definition try_add_singleton (T : CppType) : M U unit :=
  _ <- static_assert
         (resolves (add_registration_candidates
                      (SingletonInstanceStorage (ConstructorFactory T) None))) ;;
  present <- contains T ;;
  if negb present then add_singleton T else ret tt.

Definition add_singleton_derived (Base Derived : CppType) : M U unit :=
  add_registration_derived Base Derived
    (SingletonInstanceStorage (ConstructorFactory Derived) None).

Definition try_add_singleton_derived (Base Derived : CppType) : M U unit :=
  _ <- static_assert (is_base_of Base Derived) ;;
  present <- contains Base ;;
  if negb present then add_singleton_derived Base Derived else ret tt.

(** [add<T>(fn)] cannot be instantiated either: the same ambiguous
    call of [add_registration]. *)
Definition add_fn (T : CppType) (fn : Producer U) : M U unit :=
  let storage := InstanceStorage (FunctionFactory T fn) in
  _ <- static_assert (resolves (add_registration_candidates storage)) ;;
  add_registration T storage.

(** [try_add<T>(fn)] calls [add<T>(fn)] with its [std::function]. *)
Definition try_add_fn (T : CppType) (fn : Producer U) : M U unit :=
  _ <- static_assert (resolves (callable_candidates StdFunction)) ;;
  _ <- static_assert
         (resolves (add_registration_candidates
                      (InstanceStorage (FunctionFactory T fn)))) ;;
  present <- contains T ;;
  if negb present then add_fn T fn else ret tt.

Definition add_derived_fn (Base Derived : CppType) (fn : Producer U) : M U unit :=
  add_registration_derived Base Derived (InstanceStorage (FunctionFactory Derived fn)).

Definition try_add_derived_fn (Base Derived : CppType) (fn : Producer U) : M U unit :=
  _ <- static_assert (is_base_of Base Derived) ;;
  present <- contains Base ;;
  if negb present then add_derived_fn Base Derived fn else ret tt.

Definition add_singleton_fn (T : CppType) (fn : Producer U) : M U unit :=
  let storage := SingletonInstanceStorage (FunctionFactory T fn) None in
  _ <- static_assert (resolves (callable_candidates Closure)) ;;
  _ <- static_assert (resolves (add_registration_candidates storage)) ;;
  add_registration T storage.

(** [try_add_singleton<T>(fn)] calls [add_singleton<T>(fn)] with its
    [std::function]: the call is ambiguous. *)
Definition try_add_singleton_fn (T : CppType) (fn : Producer U) : M U unit :=
  _ <- static_assert (resolves (callable_candidates StdFunction)) ;;
  _ <- static_assert
         (resolves (add_registration_candidates
                      (SingletonInstanceStorage (FunctionFactory T fn) None))) ;;
  present <- contains T ;;
  if negb present then add_singleton_fn T fn else ret tt.

Definition add_singleton_derived_fn (Base Derived : CppType) (fn : Producer U)
  : M U unit :=
  add_registration_derived Base Derived
    (SingletonInstanceStorage (FunctionFactory Derived fn) None).

Definition try_add_singleton_derived_fn (Base Derived : CppType) (fn : Producer U)
  : M U unit :=
  _ <- static_assert (is_base_of Base Derived) ;;
  present <- contains Base ;;
  if negb present then add_singleton_derived_fn Base Derived fn else ret tt.

Definition add_derived_data (Base Derived : CppType) (data : shared_ptr) : M U unit :=
  add_registration_derived Base Derived (InstanceStorage (ConstantFactory Derived data)).

Definition try_add_derived_data (Base Derived : CppType) (data : shared_ptr)
  : M U unit :=
  _ <- static_assert (is_base_of Base Derived) ;;
  present <- contains Base ;;
  if negb present then add_derived_data Base Derived data else ret tt.

End Injector.


(** ** Clients of the registry *)

(** [N] consecutive calls of [m], each result (a value or the
    exception the caller catches) recorded in order. *)
Fixpoint repeat_call {U A} (N : nat) (m : M U A) (s : State U)
  : option (list (Result A) * State U) :=
  match N with
  | 0 => Some ([], s)
  | S n =>
      match m s with
      | Some (r, s1) =>
          match repeat_call n m s1 with
          | Some (rs, s2) => Some (r :: rs, s2)
          | None => None
          end
      | None => None
      end
  end.

(** [N] invocations of a callable, one after the other. *)
Fixpoint invoke_times {U} (N : nat) (fn : Producer U) (w : World U)
  : list shared_ptr * World U :=
  match N with
  | 0 => ([], w)
  | S n =>
      let '(p, w1) := fn w in
      let '(ps, w2) := invoke_times n fn w1 in
      (p :: ps, w2)
  end.

(** The callables of a list invoked once each, first to last. *)
Fixpoint invoke_each {U} (fns : list (Producer U)) (w : World U)
  : list shared_ptr * World U :=
  match fns with
  | [] => ([], w)
  | fn :: fns' =>
      let '(p, w1) := fn w in
      let '(ps, w2) := invoke_each fns' w1 in
      (p :: ps, w2)
  end.

(** What the caller of [get<T>()] sees of a produced handle. *)
Definition checked (p : shared_ptr) : Result Value :=
  if is_null p then Throw ComponentCreationException else Ok (VShared p).

(** A callable that allocates a new object on every invocation. *)
Definition allocates {U} (fn : Producer U) : Prop :=
  forall w, (fn w).1 = Some (length (heap w))
            /\ length (heap (fn w).2) = S (length (heap w)).

(** The registration calls of the interface and their targets: the
    type whose identity receives the provider. *)
Inductive Registration (U : Type) : Type :=
  | Add (T : CppType)
  | AddDerived (Base Derived : CppType)
  | AddSingleton (T : CppType)
  | AddSingletonDerived (Base Derived : CppType)
  | AddFn (T : CppType) (fn : Producer U)
  | AddDerivedFn (Base Derived : CppType) (fn : Producer U)
  | AddSingletonFn (T : CppType) (fn : Producer U)
  | AddSingletonDerivedFn (Base Derived : CppType) (fn : Producer U)
  | AddDerivedData (Base Derived : CppType) (data : shared_ptr).
Arguments Add {U} _.
Arguments AddDerived {U} _ _.
Arguments AddSingleton {U} _.
Arguments AddSingletonDerived {U} _ _.
Arguments AddFn {U} _ _.
Arguments AddDerivedFn {U} _ _ _.
Arguments AddSingletonFn {U} _ _.
Arguments AddSingletonDerivedFn {U} _ _ _.
Arguments AddDerivedData {U} _ _ _.

Definition target {U} (r : Registration U) : CppType :=
  match r with
  | Add T | AddSingleton T | AddFn T _ | AddSingletonFn T _ => T
  | AddDerived B _ | AddSingletonDerived B _ | AddDerivedFn B _ _
  | AddSingletonDerivedFn B _ _ | AddDerivedData B _ _ => B
  end.

(** The unconditional member function of a registration can be
    instantiated: [add<T>()] and [add<T>(fn)] cannot, the
    [<Base, Derived>] forms can when [Base] and [Derived] pass the
    [static_assert]. *)
Definition well_typed {U} (is_base_of : CppType -> CppType -> bool)
    (r : Registration U) : bool :=
  match r with
  | Add _ | AddFn _ _ => false
  | AddSingleton _ | AddSingletonFn _ _ => true
  | AddDerived B D | AddSingletonDerived B D | AddDerivedFn B D _
  | AddSingletonDerivedFn B D _ | AddDerivedData B D _ => is_base_of B D
  end.

(** The "only if absent" member function of a registration can be
    instantiated: [try_add<T>()], [try_add<T>(fn)] and
    [try_add_singleton<T>(fn)] cannot. *)
Definition try_well_typed {U} (is_base_of : CppType -> CppType -> bool)
    (r : Registration U) : bool :=
  match r with
  | Add _ | AddFn _ _ | AddSingletonFn _ _ => false
  | AddSingleton _ => true
  | AddDerived B D | AddSingletonDerived B D | AddDerivedFn B D _
  | AddSingletonDerivedFn B D _ | AddDerivedData B D _ => is_base_of B D
  end.

(** The provider object a registration creates. *)
Definition new_provider {U} (r : Registration U) : ComponentProvider U :=
  match r with
  | Add T => NonCastingComponentProvider T (InstanceStorage (ConstructorFactory T))
  | AddDerived B D =>
      CastingComponentProvider B D (InstanceStorage (ConstructorFactory D))
  | AddSingleton T =>
      NonCastingComponentProvider T (SingletonInstanceStorage (ConstructorFactory T) None)
  | AddSingletonDerived B D =>
      CastingComponentProvider B D (SingletonInstanceStorage (ConstructorFactory D) None)
  | AddFn T fn => NonCastingComponentProvider T (InstanceStorage (FunctionFactory T fn))
  | AddDerivedFn B D fn =>
      CastingComponentProvider B D (InstanceStorage (FunctionFactory D fn))
  | AddSingletonFn T fn =>
      NonCastingComponentProvider T (SingletonInstanceStorage (FunctionFactory T fn) None)
  | AddSingletonDerivedFn B D fn =>
      CastingComponentProvider B D (SingletonInstanceStorage (FunctionFactory D fn) None)
  | AddDerivedData B D data =>
      CastingComponentProvider B D (InstanceStorage (ConstantFactory D data))
  end.

Section Calls.

Context {U : Type}.
Variable constructor : CppType -> option (list CppType).
Variable is_base_of : CppType -> CppType -> bool.

(** The unconditional and the "only if absent" member function of
    each registration. *)
Definition register (r : Registration U) : M U unit :=
  match r with
  | Add T => add T
  | AddDerived B D => add_derived is_base_of B D
  | AddSingleton T => add_singleton T
  | AddSingletonDerived B D => add_singleton_derived is_base_of B D
  | AddFn T fn => add_fn T fn
  | AddDerivedFn B D fn => add_derived_fn is_base_of B D fn
  | AddSingletonFn T fn => add_singleton_fn T fn
  | AddSingletonDerivedFn B D fn => add_singleton_derived_fn is_base_of B D fn
  | AddDerivedData B D data => add_derived_data is_base_of B D data
  end.

Definition try_register (r : Registration U) : M U unit :=
  match r with
  | Add T => try_add T
  | AddDerived B D => try_add_derived is_base_of B D
  | AddSingleton T => try_add_singleton T
  | AddSingletonDerived B D => try_add_singleton_derived is_base_of B D
  | AddFn T fn => try_add_fn T fn
  | AddDerivedFn B D fn => try_add_derived_fn is_base_of B D fn
  | AddSingletonFn T fn => try_add_singleton_fn T fn
  | AddSingletonDerivedFn B D fn => try_add_singleton_derived_fn is_base_of B D fn
  | AddDerivedData B D data => try_add_derived_data is_base_of B D data
  end.

(** One call of a client on the registry. *)
Inductive Call : Type :=
  | CallRegister (r : Registration U)
  | CallTryRegister (r : Registration U)
  | CallGet (fuel : nat) (T : CppType)
  | CallContains (T : CppType).

Definition binds (c : Call) (T : CppType) : Prop :=
  match c with
  | CallRegister r | CallTryRegister r => target r = T
  | CallGet _ _ | CallContains _ => False
  end.

(** The state a call leaves, whether it returned or threw. *)
Definition after {A} (m : M U A) (s : State U) : option (State U) :=
  match m s with
  | Some (_, s') => Some s'
  | None => None
  end.

Definition call (c : Call) (s : State U) : option (State U) :=
  match c with
  | CallRegister r => after (register r) s
  | CallTryRegister r => after (try_register r) s
  | CallGet fuel T => after (get constructor fuel T) s
  | CallContains T => after (contains T) s
  end.

(** A client program: calls in sequence from a state. *)
Fixpoint run (cs : list Call) (s : State U) : option (State U) :=
  match cs with
  | [] => Some s
  | c :: cs' =>
      match call c s with
      | Some s' => run cs' s'
      | None => None
      end
  end.

(** A test: the calls [cs] from a program start, then [N] retrievals
    of [T]; the results and what the callables left behind. *)
Definition client (cs : list Call) (fuel N : nat) (T : CppType) (w : World U)
  : option (list (Result Value) * World U) :=
  match run cs (initial_state w) with
  | Some s =>
      match repeat_call N (get constructor fuel T) s with
      | Some (rs, s') => Some (rs, world s')
      | None => None
      end
  | None => None
  end.

End Calls.

(** ** Invariants *)

(** A provider without the content of its cache slot. *)
Definition binding_of {U} (p : ComponentProvider U) : ComponentProvider U :=
  match provider_storage p with
  | InstanceStorage _ => p
  | SingletonInstanceStorage f _ => with_storage p (SingletonInstanceStorage f None)
  end.

(** What a retrieval may change: it assigns ids to new types, lets
    producers act on the world and fills cache slots; the binding
    table, the providers it owns and the ids already assigned stay. *)
Record frame {U} (s s' : State U) : Prop := mkFrame {
  frame_registrations : m_Registrations s' = m_Registrations s;
  frame_bindings :
    binding_of <$> provider_objects s' = binding_of <$> provider_objects s;
  frame_static_id : forall T id, static_id s T = Some id -> static_id s' T = Some id;
  frame_last_index : s_LastIndex s <= s_LastIndex s'
}.

(** The states a program can reach: assigned ids are below the
    counter and distinct for distinct types, and every entry of the
    binding table has a key that is the id of a type and a non-empty
    list of handles to existing providers. *)
Record well_formed {U} (s : State U) : Prop := mkWellFormed {
  wf_id_bound : forall T id, static_id s T = Some id -> id < s_LastIndex s;
  wf_id_inj : forall T1 T2 id,
      static_id s T1 = Some id -> static_id s T2 = Some id -> T1 = T2;
  wf_key_assigned : forall id hs,
      m_Registrations s !! id = Some hs -> exists T, static_id s T = Some id;
  wf_nonempty : forall id hs, m_Registrations s !! id = Some hs -> hs <> [];
  wf_handles : forall id hs h,
      m_Registrations s !! id = Some hs -> h ∈ hs -> h < length (provider_objects s)
}.

(** [T]'s identity has no entry in the binding table. *)
Definition unregistered {U} (s : State U) (T : CppType) : bool :=
  match static_id s T with
  | Some id => bool_decide (m_Registrations s !! id = None)
  | None => true
  end.

(** [T] heads a default-constructible chain of depth at most [n]: it
    is a class type without registration whose constructor takes
    shared handles of types that head such chains of depth below [n]. *)
Fixpoint constructible {U} (constructor : CppType -> option (list CppType))
    (n : nat) (s : State U) (T : CppType) : bool :=
  match n with
  | 0 => false
  | S n' =>
      negb (Traits.is_vector T) && negb (Traits.is_shared T)
      && negb (Traits.is_reference T)
      && unregistered s T
      && match constructor T with
         | Some params =>
             forallb (fun X => match X with
                               | SharedPtr D => constructible constructor n' s D
                               | _ => false
                               end) params
         | None => false
         end
  end.

(** The object at address [a] of the heap [H] is a [T] whose
    constructor arguments are, parameter by parameter, non-null
    handles to objects of the parameters' pointee types that are built
    the same way, to depth [n]. *)
Fixpoint built (constructor : CppType -> option (list CppType))
    (n : nat) (H : list Object) (a : nat) (T : CppType) : Prop :=
  match n with
  | 0 => False
  | S n' =>
      exists params args,
        constructor T = Some params
        /\ H !! a = Some (mkObject T args)
        /\ Forall2 (fun P v => exists D b,
                        P = SharedPtr D /\ v = VShared (Some b)
                        /\ built constructor n' H b D) params args
  end.

(** Handle [h] is a transient provider that wraps the callable [fn]. *)
Definition function_provider {U} (s : State U) (h : nat) (fn : Producer U) : Prop :=
  exists p D,
    provider_objects s !! h = Some p
    /\ provider_storage p = InstanceStorage (FunctionFactory D fn).

(** ** A test program

    The classes and callables of [test/injector_with_function.cpp],
    with a class [Client] whose constructor takes a
    [std::shared_ptr<Dep>].  The captured variable is [call_count]. *)

Module Example.

Definition Base : CppType := Class "Base".
Definition Derived : CppType := Class "Derived".
Definition Derived2 : CppType := Class "Derived2".
Definition Dep : CppType := Class "Dep".
Definition Client : CppType := Class "Client".

Definition constructor (T : CppType) : option (list CppType) :=
  match T with
  | Class "Derived" | Class "Derived2" | Class "Dep" => Some []
  | Class "Client" => Some [SharedPtr Dep]
  | _ => None
  end.

Definition is_base_of (B D : CppType) : bool :=
  bool_decide (B = D)
  || (bool_decide (B = Base) && bool_decide (D ∈ [Derived; Derived2; Client])).

(** [[&] { call_count += 1; return std::make_shared<Derived>(); }] *)
Definition counting_factory : Producer nat :=
  fun w =>
    let '(p, w') := make_shared Derived [] w in
    (p, mkWorld (heap w') (S (user w'))).

(** [[] { return nullptr; }] *)
Definition null_factory : Producer nat := fun w => (None, w).

(** A callable that hands out the handle it captured. *)
Definition same_factory (p : shared_ptr) : Producer nat := fun w => (p, w).

Definition start : State nat := initial_state (mkWorld [] 0).

(** The state the calls [cs] leave when made from [start]. *)
Definition program (cs : list (@Call nat)) : State nat :=
  default start (run constructor is_base_of cs start).

(** [injector.add<Base, Derived>(null_factory)] *)
Definition null_bound : State nat :=
  program [CallRegister (AddDerivedFn Base Derived null_factory)].

(** [injector.add<Base, Derived>(counting_factory)] *)
Definition transient_bound : State nat :=
  program [CallRegister (AddDerivedFn Base Derived counting_factory)].

(** [injector.add_singleton<Base, Derived>(counting_factory)] *)
Definition singleton_bound : State nat :=
  program [CallRegister (AddSingletonDerivedFn Base Derived counting_factory)].

(** Both [add] calls, the null one first. *)
Definition twice_bound : State nat :=
  program [CallRegister (AddDerivedFn Base Derived null_factory);
           CallRegister (AddDerivedFn Base Derived counting_factory)].

End Example.

(** Every value below the counter is the id of a type: the counter
    has been read once for each of them. *)
Definition dense {U} (s : State U) : Prop :=
  forall i, i < s_LastIndex s -> exists T, static_id s T = Some i.

(** Handle [h] is a singleton provider that wraps the callable [fn]
    and has not been asked yet. *)
Definition fresh_singleton {U} (s : State U) (h : nat) (fn : Producer U) : Prop :=
  exists p D,
    provider_objects s !! h = Some p
    /\ provider_storage p = SingletonInstanceStorage (FunctionFactory D fn) None.

(** Handle [h] is a singleton provider whose cache slot holds [v]. *)
Definition cached_singleton {U} (s : State U) (h : nat) (v : shared_ptr) : Prop :=
  exists p f,
    provider_objects s !! h = Some p
    /\ provider_storage p = SingletonInstanceStorage f (Some v).

(** ** More states of the test program *)

Module Bindings.

Import Example.

(** [injector.add<Base, Derived>(null_factory); injector.get<Client>()] *)
Definition after_get : State nat :=
  default null_bound (run constructor is_base_of [CallGet 3 Client] null_bound).

(** [auto data = std::make_shared<Derived>(); injector.add<Base,
    Derived>(data)] *)
Definition constant_bound : State nat :=
  default start
    (run constructor is_base_of
         [CallRegister (AddDerivedData Base Derived (Some 0))]
         (initial_state (mkWorld [mkObject Derived []] 0))).

(** [[&] { call_count += 1; return std::make_shared<Derived2>(); }] *)
Definition counting_factory2 : Producer nat :=
  fun w =>
    let '(p, w') := make_shared Derived2 [] w in
    (p, mkWorld (heap w') (S (user w'))).

(** Two singleton bindings of [Base], to the counting callables. *)
Definition two_singletons : State nat :=
  program [CallRegister (AddSingletonDerivedFn Base Derived counting_factory);
           CallRegister (AddSingletonDerivedFn Base Derived2 counting_factory2)].

(** [injector.try_add_singleton<Dep>()] on a fresh registry. *)
Definition tried : State nat :=
  program [CallTryRegister (AddSingleton Dep)].

(** [injector.add<Dep, Dep>(null_factory)] *)
Definition dep_null : State nat :=
  program [CallRegister (AddDerivedFn Dep Dep null_factory)].

(** [[&] { call_count += 1; return nullptr; }] *)
Definition counting_null : Producer nat :=
  fun w => (None, mkWorld (heap w) (S (user w))).

(** [injector.add<Base, Derived>()] *)
Definition default_bound : State nat :=
  program [CallRegister (AddDerived Base Derived)].

End Bindings.

(** No list of the binding table names a provider twice. *)
Definition handles_distinct {U} (s : State U) : Prop :=
  forall id hs, m_Registrations s !! id = Some hs -> NoDup hs.

(** ** A program with a dependency cycle

    [A]'s constructor takes a [std::shared_ptr<B>] and [B]'s a
    [std::shared_ptr<A>]. *)

Module Cycle.

Definition A : CppType := Class "A".
Definition B : CppType := Class "B".

Definition constructor (T : CppType) : option (list CppType) :=
  match T with
  | Class "A" => Some [SharedPtr B]
  | Class "B" => Some [SharedPtr A]
  | _ => None
  end.

(** The types on the cycle. *)
Definition on_cycle (T : CppType) : Prop := T = A \/ T = B.

End Cycle.

(** [m] relates every state it starts in to the state it leaves. *)
Definition preserves {U A} (P : State U -> State U -> Prop) (m : M U A) : Prop :=
  forall s r s', m s = Some (r, s') -> P s s'.

(** Every outcome of [m1] is an outcome of [m2]. *)
Definition refines {U A} (m1 m2 : M U A) : Prop :=
  forall s o, m1 s = Some o -> m2 s = Some o.

(** Every exception that leaves [m] leaves it in a state of [Q]. *)
Definition raises {U A} (Q : State U -> Prop) (m : M U A) : Prop :=
  forall s e s', m s = Some (Throw e, s') -> Q s'.

(** [s'] is the state in which the selected provider or the fallback
    construction of a single-instance retrieval, at most [n] frames
    below the caller's, has just produced a null instance. *)
Definition null_produced {U} (constructor : CppType -> option (list CppType))
    (n : nat) (s' : State U) : Prop :=
  exists m X s1,
    m <= n
    /\ Traits.is_vector X = false /\ Traits.is_shared X = false
    /\ Traits.is_reference X = false
    /\ get_unchecked constructor (get constructor m) X s1 = Some (Ok None, s').

(** * Properties *)

(** ** The computation monad *)

Section MonadLemmas.

Context {U : Type}.

Lemma bind_inv {A B} (m : M U A) (k : A -> M U B) s r s' :
  bind m k s = Some (r, s') ->
  (exists a s1, m s = Some (Ok a, s1) /\ k a s1 = Some (r, s'))
  \/ (exists e, m s = Some (Throw e, s') /\ r = Throw e).
Proof.
  unfold bind. destruct (m s) as [[[a|e] s1]|]; intros H.
  - left; eauto.
  - right; inversion H; eauto.
  - discriminate.
Qed.

Lemma bind_ok {A B} (m : M U A) (k : A -> M U B) s a s1 :
  m s = Some (Ok a, s1) -> bind m k s = k a s1.
Proof. unfold bind. by intros ->. Qed.

Lemma bind_throw {A B} (m : M U A) (k : A -> M U B) s e s1 :
  m s = Some (Throw e, s1) -> bind m k s = Some (Throw e, s1).
Proof. unfold bind. by intros ->. Qed.

Lemma bind_none {A B} (m : M U A) (k : A -> M U B) s :
  m s = None -> bind m k s = None.
Proof. unfold bind. by intros ->. Qed.

Lemma refines_refl {A} (m : M U A) : refines m m.
Proof. by intros s o. Qed.

Lemma refines_bind {A B} (m1 m2 : M U A) (k1 k2 : A -> M U B) :
  refines m1 m2 -> (forall a, refines (k1 a) (k2 a)) ->
  refines (bind m1 k1) (bind m2 k2).
Proof.
  intros Hm Hk s o. unfold bind.
  destruct (m1 s) as [[[a|e] s1]|] eqn:E; [| |done].
  - rewrite (Hm _ _ E). apply Hk.
  - by rewrite (Hm _ _ E).
Qed.

Lemma refines_for_each {A B} (f1 f2 : A -> M U B) l :
  (forall a, refines (f1 a) (f2 a)) -> refines (for_each f1 l) (for_each f2 l).
Proof.
  intros Hf. induction l as [|a l IH]; simpl.
  - apply refines_refl.
  - apply refines_bind; [apply Hf|]. intros b.
    apply refines_bind; [apply IH|]. intros bs. apply refines_refl.
Qed.

Lemma rejected_refines {A} (m : M U A) : refines rejected m.
Proof. by intros s o. Qed.

End MonadLemmas.

(** ** What every retrieval preserves *)

Section Preservation.

Context {U : Type}.
Variable constructor : CppType -> option (list CppType).
Variable P : State U -> State U -> Prop.

Hypothesis P_refl : forall s, P s s.
Hypothesis P_trans : forall s1 s2 s3, P s1 s2 -> P s2 s3 -> P s1 s3.
Hypothesis P_type_id : forall T s, P s (type_id T s).2.
Hypothesis P_world : forall w s, P s (set_world w s).
Hypothesis P_instance : forall h p f c v s,
  provider_objects s !! h = Some p ->
  provider_storage p = SingletonInstanceStorage f c ->
  P s (set_provider_objects
         (<[h := with_storage p (SingletonInstanceStorage f (Some v))]> (provider_objects s)) s).

Lemma preserves_ret {A} (a : A) : preserves P (ret a).
Proof. intros s r s' [= _ <-]. apply P_refl. Qed.

Lemma preserves_throw {A} e : preserves P (@throw U A e).
Proof. intros s r s' [= _ <-]. apply P_refl. Qed.

Lemma preserves_rejected {A} : preserves P (@rejected U A).
Proof. by intros s r s'. Qed.

Lemma preserves_bind {A B} (m : M U A) (k : A -> M U B) :
  preserves P m -> (forall a, preserves P (k a)) -> preserves P (bind m k).
Proof.
  intros Hm Hk s r s' H.
  destruct (bind_inv _ _ _ _ _ H) as [(a & s1 & H1 & H2)|(e & H1 & _)].
  - eapply P_trans; [by eapply Hm | by eapply Hk].
  - by eapply Hm.
Qed.

Lemma preserves_for_each {A B} (f : A -> M U B) l :
  (forall a, preserves P (f a)) -> preserves P (for_each f l).
Proof.
  intros Hf. induction l as [|a l IH]; simpl.
  - apply preserves_ret.
  - apply preserves_bind; [apply Hf|]. intros b.
    apply preserves_bind; [apply IH|]. intros bs. apply preserves_ret.
Qed.

Lemma preserves_type_id T : preserves P (lift (type_id T)).
Proof.
  intros s r s'. unfold lift.
  pose proof (P_type_id T s) as H. destruct (type_id T s) as [id s1].
  by intros [= _ <-].
Qed.

Lemma preserves_lift_world {A} (f : World U -> A * World U) :
  preserves P (lift_world f).
Proof.
  intros s r s'. unfold lift_world. destruct (f (world s)) as [a w].
  intros [= _ <-]. apply P_world.
Qed.

Lemma preserves_registrations : preserves P registrations.
Proof. intros s r s' [= _ <-]. apply P_refl. Qed.

Lemma preserves_load_provider h : preserves P (load_provider h).
Proof.
  intros s r s'. unfold load_provider.
  destruct (provider_objects s !! h); [|done]. intros [= _ <-]. apply P_refl.
Qed.

Lemma preserves_store_instance h v : preserves P (store_instance h v).
Proof.
  intros s r s'. unfold store_instance.
  destruct (provider_objects s !! h) as [p|] eqn:Hp; [|done].
  destruct (provider_storage p) as [f|f c] eqn:Hst; [done|].
  intros [= _ <-]. by eapply P_instance.
Qed.

Section Open.

Variable get_rec : CppType -> M U Value.
Hypothesis get_rec_preserves : forall T, preserves P (get_rec T).

Lemma preserves_resolve_argument T X : preserves P (resolve_argument get_rec T X).
Proof.
  unfold resolve_argument.
  destruct (injectable T X && returns X X); [apply get_rec_preserves|apply preserves_rejected].
Qed.

Lemma preserves_factory_build f : preserves P (factory_build constructor get_rec f).
Proof.
  destruct f as [T|T fn|T data]; simpl.
  - destruct (constructor T) as [params|]; [|apply preserves_rejected].
    apply preserves_bind.
    + apply preserves_for_each, preserves_resolve_argument.
    + intros args. apply preserves_lift_world.
  - apply preserves_lift_world.
  - apply preserves_ret.
Qed.

Lemma preserves_storage_get h st : preserves P (storage_get constructor get_rec h st).
Proof.
  destruct st as [f|f [v|]]; simpl.
  - apply preserves_factory_build.
  - apply preserves_ret.
  - apply preserves_bind; [apply preserves_factory_build|]. intros v.
    apply preserves_bind; [apply preserves_store_instance|]. intros _.
    apply preserves_ret.
Qed.

Lemma preserves_provider_get h : preserves P (provider_get constructor get_rec h).
Proof.
  apply preserves_bind; [apply preserves_load_provider|].
  intros p. apply preserves_storage_get.
Qed.

Lemma preserves_get_unchecked T : preserves P (get_unchecked constructor get_rec T).
Proof.
  apply preserves_bind; [apply preserves_type_id|]. intros id.
  apply preserves_bind; [apply preserves_registrations|]. intros regs.
  destruct (regs !! id) as [hs|].
  - destruct (last hs); [apply preserves_provider_get|apply preserves_rejected].
  - apply preserves_factory_build.
Qed.

Lemma preserves_get_plain T : preserves P (get_plain constructor get_rec T).
Proof.
  unfold get_plain. destruct (is_reference T); [apply preserves_rejected|].
  apply preserves_bind; [apply preserves_get_unchecked|]. intros v.
  destruct (is_null v); [apply preserves_throw|apply preserves_ret].
Qed.

Lemma preserves_get_vector T : preserves P (get_vector constructor get_rec T).
Proof.
  apply preserves_bind; [apply preserves_type_id|]. intros id.
  apply preserves_bind; [apply preserves_registrations|]. intros regs.
  destruct (regs !! id) as [hs|]; [|apply preserves_ret].
  apply preserves_for_each, preserves_provider_get.
Qed.

Lemma preserves_delegate X R : preserves P (delegate get_rec X R).
Proof.
  unfold delegate.
  destruct (returns X R); [apply get_rec_preserves|apply preserves_rejected].
Qed.

Lemma preserves_get_with T : preserves P (get_with constructor get_rec T).
Proof.
  unfold get_with.
  destruct (viable T) as [|[] [|? ?]]; try apply preserves_rejected.
  - apply preserves_bind; [apply preserves_get_plain|].
    intros v. apply preserves_ret.
  - destruct (element_type T); [apply preserves_delegate|apply preserves_rejected].
  - apply preserves_delegate.
  - destruct (value_type T); [|apply preserves_rejected].
    apply preserves_bind; [apply preserves_get_vector|].
    intros v. apply preserves_ret.
  - destruct (value_type T) as [V|]; [|apply preserves_rejected].
    destruct (element_type V); [apply preserves_delegate|apply preserves_rejected].
Qed.

End Open.

Lemma preserves_get fuel T : preserves P (get constructor fuel T).
Proof.
  revert T. induction fuel as [|n IH]; intros T; simpl.
  - apply preserves_rejected.
  - by apply preserves_get_with.
Qed.

End Preservation.

(** ** Type identity *)

Section TypeIdLemmas.

Context {U : Type}.
Implicit Types (s : State U) (T : CppType).

Lemma type_id_known T s id : static_id s T = Some id -> type_id T s = (id, s).
Proof. unfold type_id. by intros ->. Qed.

Lemma type_id_assigned T s : static_id (type_id T s).2 T = Some (type_id T s).1.
Proof.
  unfold type_id. destruct (static_id s T) eqn:E; simpl; [done|].
  by rewrite decide_True.
Qed.

Lemma type_id_stable T s : type_id T (type_id T s).2 = type_id T s.
Proof.
  rewrite (surjective_pairing (type_id T s)) at 2.
  apply type_id_known, type_id_assigned.
Qed.

Lemma type_id_registrations T s :
  m_Registrations (type_id T s).2 = m_Registrations s.
Proof. unfold type_id. by destruct (static_id s T). Qed.

Lemma type_id_provider_objects T s :
  provider_objects (type_id T s).2 = provider_objects s.
Proof. unfold type_id. by destruct (static_id s T). Qed.

Lemma type_id_world T s : world (type_id T s).2 = world s.
Proof. unfold type_id. by destruct (static_id s T). Qed.

Lemma type_id_bound T s :
  well_formed s -> (type_id T s).1 < s_LastIndex (type_id T s).2.
Proof.
  intros Hwf. unfold type_id. destruct (static_id s T) eqn:E; simpl; [|lia].
  by eapply wf_id_bound.
Qed.

(** A type seen for the first time gets an id no entry of the table
    has. *)
Lemma type_id_fresh T s :
  well_formed s -> static_id s T = None ->
  m_Registrations s !! (type_id T s).1 = None.
Proof.
  intros Hwf E. unfold type_id. rewrite E. simpl.
  destruct (m_Registrations s !! s_LastIndex s) as [hs|] eqn:Hk; [|done].
  destruct (wf_key_assigned s Hwf _ _ Hk) as [X HX].
  apply (wf_id_bound s Hwf) in HX. lia.
Qed.

(** Distinct types have distinct ids. *)
Lemma type_id_inj T1 T2 s :
  well_formed s ->
  (type_id T1 s).1 = (type_id T2 (type_id T1 s).2).1 -> T1 = T2.
Proof.
  intros Hwf. unfold type_id.
  destruct (static_id s T1) as [i1|] eqn:E1; simpl.
  - destruct (static_id s T2) as [i2|] eqn:E2; simpl.
    + intros ->. by eapply wf_id_inj.
    + intros ->. apply (wf_id_bound s Hwf) in E1. lia.
  - destruct (decide (T2 = T1)) as [->|Hne]; [done|].
    destruct (static_id s T2) as [i2|] eqn:E2; simpl.
    + intros <-. apply (wf_id_bound s Hwf) in E2. lia.
    + lia.
Qed.

Lemma well_formed_initial (w : World U) : well_formed (initial_state w).
Proof. split; simpl; intros; by simplify_map_eq. Qed.

Lemma well_formed_type_id T s : well_formed s -> well_formed (type_id T s).2.
Proof.
  intros Hwf. unfold type_id. destruct (static_id s T) eqn:E; simpl; [done|].
  split; simpl.
  - intros X id. case_decide.
    + intros [= <-]. lia.
    + intros H'. apply (wf_id_bound s Hwf) in H'. lia.
  - intros X1 X2 id. repeat case_decide; subst; try done.
    + intros [= <-] H'. apply (wf_id_bound s Hwf) in H'. lia.
    + intros H' [= <-]. apply (wf_id_bound s Hwf) in H'. lia.
    + apply (wf_id_inj s Hwf).
  - intros id hs H'. destruct (wf_key_assigned s Hwf _ _ H') as [X HX].
    exists X. rewrite decide_False; [done|congruence].
  - apply (wf_nonempty s Hwf).
  - apply (wf_handles s Hwf).
Qed.

Lemma well_formed_set_world (w : World U) s :
  well_formed s -> well_formed (set_world w s).
Proof. intros [? ? ? ? ?]. by split. Qed.

Lemma well_formed_instance h (p' : ComponentProvider U) s :
  well_formed s ->
  well_formed (set_provider_objects (<[h := p']> (provider_objects s)) s).
Proof.
  intros [? ? ? ? ?]. split; simpl; try done.
  intros id hs h'. rewrite length_insert. eauto.
Qed.

End TypeIdLemmas.

(** ** The frame of a retrieval *)

Section FrameLemmas.

Context {U : Type}.
Implicit Types (s : State U) (p : ComponentProvider U).

Lemma provider_storage_with_storage p (st : Storage U) :
  provider_storage (with_storage p st) = st.
Proof. by destruct p. Qed.

Lemma with_storage_with_storage p (st st' : Storage U) :
  with_storage (with_storage p st) st' = with_storage p st'.
Proof. by destruct p. Qed.

Lemma binding_of_cached p f c v :
  provider_storage p = SingletonInstanceStorage f c ->
  binding_of (with_storage p (SingletonInstanceStorage f (Some v))) = binding_of p.
Proof.
  intros H. unfold binding_of.
  by rewrite provider_storage_with_storage, with_storage_with_storage, H.
Qed.

Lemma binding_of_storage p p' :
  binding_of p' = binding_of p ->
  match provider_storage p with
  | InstanceStorage f => provider_storage p' = InstanceStorage f
  | SingletonInstanceStorage f _ => exists c, provider_storage p' = SingletonInstanceStorage f c
  end.
Proof.
  unfold binding_of.
  destruct p as [T [f|f c]|B D [f|f c]], p' as [T' [f'|f' c']|B' D' [f'|f' c']];
    simpl; intros [=]; subst; eauto.
Qed.

Lemma frame_refl s : frame s s.
Proof. by split. Qed.

Lemma frame_trans s1 s2 s3 : frame s1 s2 -> frame s2 s3 -> frame s1 s3.
Proof.
  intros [H1 H2 H3 H4] [H1' H2' H3' H4']. split.
  - by rewrite H1'.
  - by rewrite H2'.
  - eauto.
  - lia.
Qed.

Lemma frame_type_id T s : frame s (type_id T s).2.
Proof.
  unfold type_id. destruct (static_id s T) eqn:E; simpl; [apply frame_refl|].
  split; simpl; try done; [|lia].
  intros X id H. case_decide; [congruence|done].
Qed.

Lemma frame_set_world (w : World U) s : frame s (set_world w s).
Proof. by split. Qed.

Lemma frame_instance h p f c v s :
  provider_objects s !! h = Some p ->
  provider_storage p = SingletonInstanceStorage f c ->
  frame s (set_provider_objects
             (<[h := with_storage p (SingletonInstanceStorage f (Some v))]>
                (provider_objects s)) s).
Proof.
  intros Hp Hst. split; simpl; try done.
  rewrite list_fmap_insert, (binding_of_cached _ _ _ _ Hst).
  apply list_insert_id. by rewrite list_lookup_fmap, Hp.
Qed.

(** A provider keeps its place, its kind and its factory. *)
Lemma frame_lookup s s' h p :
  frame s s' -> provider_objects s !! h = Some p ->
  exists p', provider_objects s' !! h = Some p' /\ binding_of p' = binding_of p.
Proof.
  intros [_ Hb _ _] Hp.
  assert ((binding_of <$> provider_objects s') !! h = Some (binding_of p)) as H.
  { by rewrite Hb, list_lookup_fmap, Hp. }
  rewrite list_lookup_fmap in H.
  destruct (provider_objects s' !! h) as [p'|]; [|done].
  exists p'. split; [done|]. by injection H.
Qed.

Lemma frame_length s s' :
  frame s s' -> length (provider_objects s') = length (provider_objects s).
Proof.
  intros [_ Hb _ _].
  by rewrite <- (length_fmap binding_of (provider_objects s')), Hb, length_fmap.
Qed.

End FrameLemmas.

(** The premises of [preserves_get] and its companions, for [frame]. *)
Ltac frame_steps :=
  eauto using frame_refl, frame_trans, frame_type_id, frame_set_world, frame_instance.

Section GetInvariants.

Context {U : Type}.
Variable constructor : CppType -> option (list CppType).

(** A retrieval leaves the binding table and the bindings as they are. *)
Lemma get_frame fuel T : preserves (@frame U) (get constructor fuel T).
Proof. apply preserves_get; frame_steps. Qed.

Lemma get_unchecked_frame fuel T :
  preserves (@frame U) (get_unchecked constructor (get constructor fuel) T).
Proof.
  apply preserves_get_unchecked; frame_steps. apply get_frame.
Qed.

Lemma factory_build_frame fuel f :
  preserves (@frame U) (factory_build constructor (get constructor fuel) f).
Proof.
  apply preserves_factory_build; frame_steps. apply get_frame.
Qed.

Lemma provider_get_frame fuel h :
  preserves (@frame U) (provider_get constructor (get constructor fuel) h).
Proof.
  apply preserves_provider_get; frame_steps. apply get_frame.
Qed.

(** A retrieval keeps a state well formed. *)
Lemma get_well_formed fuel T :
  preserves (fun s s' : State U => well_formed s -> well_formed s')
            (get constructor fuel T).
Proof.
  apply preserves_get.
  - done.
  - eauto.
  - intros X s. apply well_formed_type_id.
  - intros w s. apply well_formed_set_world.
  - intros h p f c v s _ _. apply well_formed_instance.
Qed.

End GetInvariants.

(** ** More stack never changes an outcome *)

Section Fuel.

Context {U : Type}.
Variable constructor : CppType -> option (list CppType).

Section Open.

Variables rec1 rec2 : CppType -> M U Value.
Hypothesis rec_refines : forall T, refines (rec1 T) (rec2 T).

Lemma refines_factory_build f :
  refines (factory_build constructor rec1 f) (factory_build constructor rec2 f).
Proof.
  destruct f as [T|T fn|T data]; simpl; try apply refines_refl.
  destruct (constructor T) as [params|]; [|apply refines_refl].
  apply refines_bind; [|intros; apply refines_refl].
  apply refines_for_each. intros X. unfold resolve_argument.
  destruct (injectable T X && returns X X); [apply rec_refines|apply refines_refl].
Qed.

Lemma refines_provider_get h :
  refines (provider_get constructor rec1 h) (provider_get constructor rec2 h).
Proof.
  apply refines_bind; [apply refines_refl|]. intros p.
  destruct (provider_storage p) as [f|f [v|]]; simpl.
  - apply refines_factory_build.
  - apply refines_refl.
  - apply refines_bind; [apply refines_factory_build|intros; apply refines_refl].
Qed.

Lemma refines_get_unchecked T :
  refines (get_unchecked constructor rec1 T) (get_unchecked constructor rec2 T).
Proof.
  apply refines_bind; [apply refines_refl|]. intros id.
  apply refines_bind; [apply refines_refl|]. intros regs.
  destruct (regs !! id) as [hs|].
  - destruct (last hs); [apply refines_provider_get|apply refines_refl].
  - apply refines_factory_build.
Qed.

Lemma refines_get_vector T :
  refines (get_vector constructor rec1 T) (get_vector constructor rec2 T).
Proof.
  apply refines_bind; [apply refines_refl|]. intros id.
  apply refines_bind; [apply refines_refl|]. intros regs.
  destruct (regs !! id) as [hs|]; [|apply refines_refl].
  apply refines_for_each, refines_provider_get.
Qed.

Lemma refines_get_with T :
  refines (get_with constructor rec1 T) (get_with constructor rec2 T).
Proof.
  unfold get_with, delegate, get_plain.
  destruct (viable T) as [|[] [|? ?]]; try apply refines_refl.
  - apply refines_bind; [|intros; apply refines_refl].
    destruct (is_reference T); [apply refines_refl|].
    apply refines_bind; [apply refines_get_unchecked|intros; apply refines_refl].
  - destruct (element_type T) as [E|]; [|apply refines_refl].
    destruct (returns E (SharedPtr E)); [apply rec_refines|apply refines_refl].
  - destruct (returns _ _); [apply rec_refines|apply refines_refl].
  - destruct (value_type T); [|apply refines_refl].
    apply refines_bind; [apply refines_get_vector|intros; apply refines_refl].
  - destruct (value_type T) as [V|]; [|apply refines_refl].
    destruct (element_type V) as [E|]; [|apply refines_refl].
    destruct (returns _ _); [apply rec_refines|apply refines_refl].
Qed.

End Open.

Lemma get_fuel_step fuel T :
  refines (U := U) (get constructor fuel T) (get constructor (S fuel) T).
Proof.
  revert T. induction fuel as [|n IH]; intros T.
  - apply rejected_refines.
  - change (refines (U := U) (get_with constructor (get constructor n) T)
                    (get_with constructor (get constructor (S n)) T)).
    by apply refines_get_with.
Qed.

Lemma get_fuel_mono n m T :
  n <= m -> refines (U := U) (get constructor n T) (get constructor m T).
Proof.
  induction 1 as [|m _ IH]; [apply refines_refl|].
  intros s o H. by apply get_fuel_step, IH.
Qed.

End Fuel.

(** ** Overload selection *)

Lemma viable_cases T :
  viable T =
  match T with
  | Vector V => if is_shared V then [GetVectorShared] else [GetVector]
  | SharedPtr _ => [GetShared]
  | _ => [GetPlain]
  end.
Proof. destruct T as [| | V | | | | |]; try reflexivity. by destruct V. Qed.

Lemma viable_plain T :
  is_vector T = false -> is_shared T = false -> viable T = [GetPlain].
Proof. rewrite viable_cases. by destruct T. Qed.

(** ** Registration *)

Section RegistrationLemmas.

Context {U : Type}.
Variable is_base_of : CppType -> CppType -> bool.
Implicit Types (s : State U) (r : Registration U).

(** Every registration funnels into one [push_back] on the list of
    the target's identity. *)
Lemma register_unfold r s :
  register is_base_of r s =
  if well_typed is_base_of r
  then push_back_provider (type_id (target r) s).1 (new_provider r) (type_id (target r) s).2
  else None.
Proof.
  destruct r; simpl;
    unfold add, add_derived, add_singleton, add_singleton_derived, add_fn,
           add_derived_fn, add_singleton_fn, add_singleton_derived_fn,
           add_derived_data, add_registration, add_registration_derived,
           static_assert, bind, lift, ret, rejected; simpl;
    try destruct (is_base_of _ _); try done;
    by destruct (type_id _ s).
Qed.

Lemma contains_unfold T s :
  contains T s =
  Some (Ok (bool_decide (is_Some (m_Registrations s !! (type_id T s).1))),
        (type_id T s).2).
Proof.
  unfold contains, bind, lift, registrations, ret.
  pose proof (type_id_registrations T s) as H.
  destruct (type_id T s) as [id s1]. simpl in *. by rewrite H.
Qed.

(** The "only if absent" form of a registration: the check, then the
    unconditional form. *)
Lemma try_register_unfold r s :
  try_register is_base_of r s =
  if try_well_typed is_base_of r
  then
    if bool_decide (is_Some (m_Registrations s !! (type_id (target r) s).1))
    then Some (Ok tt, (type_id (target r) s).2)
    else register is_base_of r (type_id (target r) s).2
  else None.
Proof.
  destruct r; simpl; try done;
    unfold try_add_derived, try_add_singleton, try_add_singleton_derived,
           try_add_derived_fn, try_add_singleton_derived_fn, try_add_derived_data,
           static_assert; simpl;
    try (destruct (is_base_of _ _); [|done]);
    rewrite (bind_ok _ _ _ tt s) by done;
    (erewrite bind_ok by apply contains_unfold);
    by destruct (bool_decide _).
Qed.

(** A registration whose "only if absent" form can be instantiated
    has an unconditional form that can. *)
Lemma try_well_typed_well_typed r :
  try_well_typed is_base_of r = true -> well_typed is_base_of r = true.
Proof. by destruct r. Qed.

(** A registration appends the handle of its new provider to the list
    of the target's identity and changes no other entry. *)
Lemma register_appends r s s1 :
  register is_base_of r s = Some (Ok tt, s1) ->
  m_Registrations s1
  = <[(type_id (target r) s).1 :=
        default [] (m_Registrations s !! (type_id (target r) s).1)
        ++ [length (provider_objects s)]]> (m_Registrations s)
  /\ provider_objects s1 = provider_objects s ++ [new_provider r]
  /\ world s1 = world s.
Proof.
  rewrite register_unfold. destruct (well_typed is_base_of r); [|done].
  unfold push_back_provider. intros [= <-]. simpl.
  by rewrite type_id_registrations, type_id_provider_objects, type_id_world.
Qed.

End RegistrationLemmas.

(** ** Where an exception comes from *)

Section Raises.

Context {U : Type}.
Variable constructor : CppType -> option (list CppType).
Variable Q : State U -> Prop.

Lemma raises_ret {A} (a : A) : raises Q (@ret U A a).
Proof. by intros s e s'. Qed.

Lemma raises_rejected {A} : raises Q (@rejected U A).
Proof. by intros s e s'. Qed.

Lemma raises_bind {A B} (m : M U A) (k : A -> M U B) :
  raises Q m -> (forall a, raises Q (k a)) -> raises Q (bind m k).
Proof.
  intros Hm Hk s e s' H.
  destruct (bind_inv _ _ _ _ _ H) as [(a & s1 & H1 & H2)|(e' & H1 & _)].
  - by eapply Hk.
  - by eapply Hm.
Qed.

Lemma raises_for_each {A B} (f : A -> M U B) l :
  (forall a, raises Q (f a)) -> raises Q (for_each f l).
Proof.
  intros Hf. induction l as [|a l IH]; simpl.
  - apply raises_ret.
  - apply raises_bind; [apply Hf|]. intros b.
    apply raises_bind; [apply IH|]. intros bs. apply raises_ret.
Qed.

Lemma raises_lift {A} (f : State U -> A * State U) : raises Q (lift f).
Proof. intros s e s'. unfold lift. by destruct (f s). Qed.

Lemma raises_lift_world {A} (f : World U -> A * World U) : raises Q (lift_world f).
Proof. intros s e s'. unfold lift_world. by destruct (f (world s)). Qed.

Lemma raises_load_provider h : raises Q (@load_provider U h).
Proof. intros s e s'. unfold load_provider. by destruct (provider_objects s !! h). Qed.

Lemma raises_store_instance h v : raises Q (@store_instance U h v).
Proof.
  intros s e s'. unfold store_instance.
  destruct (provider_objects s !! h) as [p|]; [|done].
  by destruct (provider_storage p).
Qed.

Section Open.

Variable get_rec : CppType -> M U Value.
Hypothesis get_rec_raises : forall T, raises Q (get_rec T).

Lemma raises_factory_build f : raises Q (factory_build constructor get_rec f).
Proof.
  destruct f as [T|T fn|T data]; simpl.
  - destruct (constructor T) as [params|]; [|apply raises_rejected].
    apply raises_bind.
    + apply raises_for_each. intros X. unfold resolve_argument.
      destruct (injectable T X && returns X X);
        [apply get_rec_raises|apply raises_rejected].
    + intros args. apply raises_lift_world.
  - apply raises_lift_world.
  - apply raises_ret.
Qed.

Lemma raises_provider_get h : raises Q (provider_get constructor get_rec h).
Proof.
  apply raises_bind; [apply raises_load_provider|]. intros p.
  destruct (provider_storage p) as [f|f [v|]]; simpl.
  - apply raises_factory_build.
  - apply raises_ret.
  - apply raises_bind; [apply raises_factory_build|]. intros v.
    apply raises_bind; [apply raises_store_instance|]. intros _.
    apply raises_ret.
Qed.

Lemma raises_get_unchecked T : raises Q (get_unchecked constructor get_rec T).
Proof.
  apply raises_bind; [apply raises_lift|]. intros id.
  apply raises_bind; [by intros s e s'|]. intros regs.
  destruct (regs !! id) as [hs|].
  - destruct (last hs); [apply raises_provider_get|apply raises_rejected].
  - apply raises_factory_build.
Qed.

Lemma raises_get_vector T : raises Q (get_vector constructor get_rec T).
Proof.
  apply raises_bind; [apply raises_lift|]. intros id.
  apply raises_bind; [by intros s e s'|]. intros regs.
  destruct (regs !! id) as [hs|]; [|apply raises_ret].
  apply raises_for_each, raises_provider_get.
Qed.

(** The null check of the first overload is the one place where an
    exception is created. *)
Hypothesis null_raises : forall T s s',
  is_vector T = false -> is_shared T = false -> is_reference T = false ->
  get_unchecked constructor get_rec T s = Some (Ok None, s') -> Q s'.

Lemma raises_get_with T : raises Q (get_with constructor get_rec T).
Proof.
  unfold get_with. pose proof (viable_cases T) as Hv.
  destruct (viable T) as [|[] [|? ?]]; try apply raises_rejected.
  - assert (is_vector T = false /\ is_shared T = false) as [HV HS].
    { destruct T as [| |V| | | | |]; try done. simpl in Hv. by destruct (is_shared V). }
    apply raises_bind; [|intros v; apply raises_ret].
    unfold get_plain. destruct (is_reference T) eqn:HR; [apply raises_rejected|].
    intros s e s' H.
    destruct (bind_inv _ _ _ _ _ H) as [(p & s1 & H1 & H2)|(e' & H1 & _)].
    + destruct p as [a|]; [done|]. injection H2 as _ <-. by eapply null_raises.
    + by eapply raises_get_unchecked.
  - unfold delegate. destruct (element_type T); [|apply raises_rejected].
    destruct (returns _ _); [apply get_rec_raises|apply raises_rejected].
  - unfold delegate.
    destruct (returns _ _); [apply get_rec_raises|apply raises_rejected].
  - destruct (value_type T); [|apply raises_rejected].
    apply raises_bind; [apply raises_get_vector|].
    intros v. apply raises_ret.
  - destruct (value_type T) as [V|]; [|apply raises_rejected].
    destruct (element_type V); [|apply raises_rejected]. unfold delegate.
    destruct (returns _ _); [apply get_rec_raises|apply raises_rejected].
Qed.

End Open.

End Raises.

(** An exception that leaves a retrieval was created by the null check
    of a single-instance retrieval nested in it, and nothing has
    happened since. *)
Lemma get_raises {U} (constructor : CppType -> option (list CppType)) fuel T :
  raises (U := U) (null_produced constructor fuel) (get constructor (S fuel) T).
Proof.
  revert T. induction fuel as [|n IH]; intros T; simpl.
  - apply raises_get_with; [by intros X s e s'|].
    intros X s s' HV HS HR H. by exists 0, X, s.
  - apply raises_get_with.
    + intros X s e s' H. destruct (IH X s e s' H) as (m & Y & s1 & Hm & HY).
      exists m, Y, s1. split; [lia|done].
    + intros X s s' HV HS HR H. by exists (S n), X, s.
Qed.

(** ** Single-instance retrieval *)

Section SingleInstance.

Context {U : Type}.
Variable constructor : CppType -> option (list CppType).
Variable is_base_of : CppType -> CppType -> bool.
Implicit Types (s : State U) (T : CppType).

Lemma get_unchecked_unfold (get_rec : CppType -> M U Value) T s :
  get_unchecked constructor get_rec T s =
  match m_Registrations s !! (type_id T s).1 with
  | Some hs =>
      match last hs with
      | Some h => provider_get constructor get_rec h (type_id T s).2
      | None => None
      end
  | None => factory_build constructor get_rec (ConstructorFactory T) (type_id T s).2
  end.
Proof.
  unfold get_unchecked, bind, lift, registrations.
  pose proof (type_id_registrations T s) as Hm.
  destruct (type_id T s) as [id s0]. simpl in *. rewrite Hm.
  destruct (m_Registrations s !! id) as [hs|]; [|done]. by destruct (last hs).
Qed.

Lemma get_vector_unfold (get_rec : CppType -> M U Value) T s :
  get_vector constructor get_rec T s =
  match m_Registrations s !! (type_id T s).1 with
  | Some hs => for_each (provider_get constructor get_rec) hs (type_id T s).2
  | None => Some (Ok [], (type_id T s).2)
  end.
Proof.
  unfold get_vector, bind, lift, registrations.
  pose proof (type_id_registrations T s) as Hm.
  destruct (type_id T s) as [id s0]. simpl in *. rewrite Hm.
  by destruct (m_Registrations s !! id) as [hs|].
Qed.

Lemma get_plain_outcome fuel T s :
  is_vector T = false -> is_shared T = false -> is_reference T = false ->
  get constructor (S fuel) T s =
  match get_unchecked constructor (get constructor fuel) T s with
  | Some (Ok p, s') => Some (checked p, s')
  | Some (Throw e, s') => Some (Throw e, s')
  | None => None
  end.
Proof.
  intros Hv Hs Hr. simpl. unfold get_with, get_plain.
  rewrite (viable_plain T Hv Hs), Hr. unfold bind at 1 2.
  destruct (get_unchecked _ _ T s) as [[[p|e] s']|]; try done.
  unfold checked. by destruct p.
Qed.



End SingleInstance.

(** ** Lifetime policies *)

Section Lifetime.

Context {U : Type}.
Variable constructor : CppType -> option (list CppType).
Implicit Types (s : State U) (T : CppType) (fn : Producer U).

Lemma repeat_call_fixed {A} (m : M U A) s r N :
  m s = Some (r, s) -> repeat_call N m s = Some (replicate N r, s).
Proof.
  intros H. induction N as [|n IH]; simpl; [done|]. by rewrite H, IH.
Qed.

Lemma provider_get_unfold (get_rec : CppType -> M U Value) h s p :
  provider_objects s !! h = Some p ->
  provider_get constructor get_rec h s
  = storage_get constructor get_rec h (provider_storage p) s.
Proof. intros Hp. unfold provider_get, bind, load_provider. by rewrite Hp. Qed.

(** A filled cache slot answers without touching anything. *)
Lemma provider_get_cached (get_rec : CppType -> M U Value) h s p f v :
  provider_objects s !! h = Some p ->
  provider_storage p = SingletonInstanceStorage f (Some v) ->
  provider_get constructor get_rec h s = Some (Ok v, s).
Proof. intros Hp Hst. by rewrite (provider_get_unfold _ _ _ _ Hp), Hst. Qed.

(** The first retrieval through an empty cache slot: one build, then
    the store. *)
Lemma provider_get_first fuel h s p f v s1 :
  provider_objects s !! h = Some p ->
  provider_storage p = SingletonInstanceStorage f None ->
  factory_build constructor (get constructor fuel) f s = Some (Ok v, s1) ->
  exists p1 c,
    provider_objects s1 !! h = Some p1
    /\ provider_storage p1 = SingletonInstanceStorage f c
    /\ provider_get constructor (get constructor fuel) h s
       = Some (Ok v,
               set_provider_objects
                 (<[h := with_storage p1 (SingletonInstanceStorage f (Some v))]>
                    (provider_objects s1)) s1).
Proof.
  intros Hp Hst Hb.
  destruct (frame_lookup s s1 h p (factory_build_frame _ _ _ _ _ _ Hb) Hp)
    as (p1 & Hp1 & Hbind).
  pose proof (binding_of_storage _ _ Hbind) as Hst1. rewrite Hst in Hst1.
  destruct Hst1 as [c Hst1]. exists p1, c. split; [done|]. split; [done|].
  rewrite (provider_get_unfold _ _ _ _ Hp), Hst. simpl.
  rewrite (bind_ok _ _ _ _ _ Hb). unfold bind, store_instance.
  by rewrite Hp1, Hst1.
Qed.

(** Retrievals through a singleton whose first build returns. *)
Lemma singleton_built fuel T s hs h p f v s1 N :
  m_Registrations s !! (type_id T s).1 = Some (hs ++ [h]) ->
  provider_objects s !! h = Some p ->
  provider_storage p = SingletonInstanceStorage f None ->
  factory_build constructor (get constructor fuel) f (type_id T s).2 = Some (Ok v, s1) ->
  exists s2,
    store_instance h v s1 = Some (Ok tt, s2)
    /\ world s2 = world s1
    /\ repeat_call (S N) (get_unchecked constructor (get constructor fuel) T) s
       = Some (replicate (S N) (Ok v), s2)
    /\ (is_vector T = false -> is_shared T = false -> is_reference T = false ->
        repeat_call (S N) (get constructor (S fuel) T) s
        = Some (replicate (S N) (checked v), s2)).
Proof.
  intros Hreg Hp Hst Hb.
  pose proof (type_id_assigned T s) as Hid.
  pose proof (type_id_registrations T s) as Hm0.
  pose proof (type_id_provider_objects T s) as Hp0.
  set (s0 := (type_id T s).2) in *. set (id := (type_id T s).1) in *.
  rewrite <- Hp0 in Hp.
  pose proof (factory_build_frame _ _ _ _ _ _ Hb) as Hfr.
  destruct (provider_get_first fuel h s0 p f v s1 Hp Hst Hb)
    as (p1 & c & Hp1 & Hst1 & Hget).
  set (s2 := set_provider_objects _ s1) in Hget.
  assert (get_unchecked constructor (get constructor fuel) T s = Some (Ok v, s2)) as H1.
  { rewrite get_unchecked_unfold. fold id s0. by rewrite Hreg, last_snoc. }
  assert (get_unchecked constructor (get constructor fuel) T s2 = Some (Ok v, s2)) as H2.
  { rewrite get_unchecked_unfold.
    assert (type_id T s2 = (id, s2)) as ->.
    { apply type_id_known. simpl. by apply (frame_static_id _ _ Hfr). }
    simpl. rewrite (frame_registrations _ _ Hfr), Hm0, Hreg, last_snoc.
    eapply provider_get_cached.
    - simpl. apply list_lookup_insert_eq. by eapply lookup_lt_Some.
    - by rewrite provider_storage_with_storage. }
  exists s2. split; [|split; [done|split]].
  - unfold store_instance. by rewrite Hp1, Hst1.
  - cbn [repeat_call]. by rewrite H1, (repeat_call_fixed _ _ _ N H2).
  - intros Hv Hs Hr. cbn [repeat_call].
    rewrite (get_plain_outcome constructor fuel T s Hv Hs Hr), H1.
    rewrite (repeat_call_fixed _ s2 (checked v) N); [done|].
    by rewrite (get_plain_outcome constructor fuel T s2 Hv Hs Hr), H2.
Qed.

(** C3, as the code has it.  Let the provider selected for [T] be a
    singleton whose cache slot is still empty.  Once the first
    invocation of its producer has returned a handle [v], null or not,
    [N + 1] consecutive retrievals all yield [v], and the state after
    them is the state right after the first one, which is the state
    the single invocation left with [v] stored in the slot: the
    producer is not invoked again.  For the caller of [get<T>()] the
    [N + 1] results are the same instance, or the same failure when
    [v] is null.  A callable [fn] always returns: the results and the
    world after the retrievals are those of one invocation of [fn].
    When the invocation ends with an exception instead (a default
    construction whose argument cannot be retrieved), the retrieval
    ends with it in the state the invocation left: nothing is stored.
    When the invocation has no outcome, the retrieval has none. *)
Theorem singleton_retrievals fuel T s hs h p f N :
  m_Registrations s !! (type_id T s).1 = Some (hs ++ [h]) ->
  provider_objects s !! h = Some p ->
  provider_storage p = SingletonInstanceStorage f None ->
  (forall v s1,
      factory_build constructor (get constructor fuel) f (type_id T s).2
      = Some (Ok v, s1) ->
      exists s2,
        store_instance h v s1 = Some (Ok tt, s2)
        /\ world s2 = world s1
        /\ repeat_call (S N) (get_unchecked constructor (get constructor fuel) T) s
           = Some (replicate (S N) (Ok v), s2)
        /\ (is_vector T = false -> is_shared T = false -> is_reference T = false ->
            repeat_call (S N) (get constructor (S fuel) T) s
            = Some (replicate (S N) (checked v), s2)))
  /\ (forall D fn,
        f = FunctionFactory D fn ->
        exists s2,
          world s2 = (fn (world s)).2
          /\ repeat_call (S N) (get_unchecked constructor (get constructor fuel) T) s
             = Some (replicate (S N) (Ok (fn (world s)).1), s2)
          /\ (is_vector T = false -> is_shared T = false -> is_reference T = false ->
              repeat_call (S N) (get constructor (S fuel) T) s
              = Some (replicate (S N) (checked (fn (world s)).1), s2)))
  /\ (forall e s1,
        factory_build constructor (get constructor fuel) f (type_id T s).2
        = Some (Throw e, s1) ->
        get_unchecked constructor (get constructor fuel) T s = Some (Throw e, s1))
  /\ (factory_build constructor (get constructor fuel) f (type_id T s).2 = None ->
      get_unchecked constructor (get constructor fuel) T s = None).
Proof.
  intros Hreg Hp Hst.
  assert (get_unchecked constructor (get constructor fuel) T s
          = storage_get constructor (get constructor fuel) h
              (SingletonInstanceStorage f None) (type_id T s).2) as Hget.
  { rewrite get_unchecked_unfold, Hreg, last_snoc.
    erewrite provider_get_unfold by (by rewrite type_id_provider_objects).
    by rewrite Hst. }
  split; [|split; [|split]].
  - intros v s1 Hb. by eapply singleton_built.
  - intros D fn ->.
    destruct (singleton_built fuel T s hs h p (FunctionFactory D fn)
                (fn (world s)).1 (set_world (fn (world s)).2 (type_id T s).2) N
                Hreg Hp Hst) as (s2 & _ & Hw & H1 & H2).
    { simpl. unfold lift_world. rewrite type_id_world. by destruct (fn (world s)). }
    exists s2. by rewrite Hw.
  - intros e s1 Hb. rewrite Hget. simpl. by rewrite (bind_throw _ _ _ _ _ Hb).
  - intros Hb. rewrite Hget. simpl. by rewrite (bind_none _ _ _ Hb).
Qed.

Lemma make_shared_allocates (D : CppType) args : allocates (U := U) (make_shared D args).
Proof. intros w. simpl. split; [done|]. rewrite length_app. simpl. lia. Qed.

Lemma invoke_times_allocates fn N w :
  allocates fn ->
  (invoke_times N fn w).1 = (fun i => Some (length (heap w) + i)) <$> seq 0 N
  /\ length (heap (invoke_times N fn w).2) = length (heap w) + N.
Proof.
  intros Hfn. revert w. induction N as [|n IH]; intros w; simpl.
  - split; [done|lia].
  - destruct (Hfn w) as [Hp Hl]. destruct (fn w) as [p w1]. simpl in *.
    destruct (IH w1) as [IH1 IH2]. destruct (invoke_times n fn w1) as [ps w2].
    simpl in *. subst. split.
    + f_equal; [f_equal; lia|]. rewrite <- fmap_S_seq, <- list_fmap_compose.
      apply list_fmap_ext. intros _ i _. simpl. f_equal. lia.
    + lia.
Qed.

(** Consecutive calls of an operation that runs a callable once and
    changes nothing but the world. *)
Lemma repeat_call_producer {A} (m : M U A) (g : shared_ptr -> Result A) fn s s0 N :
  (forall w, m (set_world w s0) = Some (g (fn w).1, set_world (fn w).2 s0)) ->
  m s = Some (g (fn (world s)).1, set_world (fn (world s)).2 s0) ->
  repeat_call (S N) m s
  = Some (g <$> (invoke_times (S N) fn (world s)).1,
          set_world (invoke_times (S N) fn (world s)).2 s0).
Proof.
  intros Hstep Hfirst.
  assert (forall n w, repeat_call n m (set_world w s0)
                      = Some (g <$> (invoke_times n fn w).1,
                              set_world (invoke_times n fn w).2 s0)) as Hrep.
  { induction n as [|n IH]; intros w; simpl; [done|].
    rewrite Hstep, IH. destruct (fn w) as [p1 w1]. simpl.
    by destruct (invoke_times n fn w1). }
  cbn [repeat_call]. rewrite Hfirst, Hrep. simpl.
  destruct (fn (world s)) as [p1 w1]. simpl. by destruct (invoke_times N fn w1).
Qed.

(** One retrieval through a transient storage whose factory runs a
    producer on the world. *)
Lemma transient_producer_step (get_rec : CppType -> M U Value)
    T s hs h p f fn :
  m_Registrations s !! (type_id T s).1 = Some (hs ++ [h]) ->
  provider_objects s !! h = Some p ->
  provider_storage p = InstanceStorage f ->
  factory_build constructor get_rec f = lift_world fn ->
  get_unchecked constructor get_rec T s
  = Some (Ok (fn (world s)).1, set_world (fn (world s)).2 (type_id T s).2)
  /\ forall w,
      get_unchecked constructor get_rec T (set_world w (type_id T s).2)
      = Some (Ok (fn w).1, set_world (fn w).2 (type_id T s).2).
Proof.
  intros Hreg Hp Hst Hf.
  pose proof (type_id_assigned T s) as Hid.
  pose proof (type_id_registrations T s) as Hm0.
  pose proof (type_id_provider_objects T s) as Hp0.
  pose proof (type_id_world T s) as Hw0.
  set (s0 := (type_id T s).2) in *. set (id := (type_id T s).1) in *.
  split.
  - rewrite get_unchecked_unfold. fold id s0. rewrite Hreg, last_snoc.
    erewrite provider_get_unfold by (by rewrite Hp0).
    rewrite Hst. simpl. rewrite Hf. unfold lift_world. rewrite Hw0.
    by destruct (fn (world s)).
  - intros w. rewrite get_unchecked_unfold.
    rewrite (type_id_known T (set_world w s0) id) by done. simpl.
    rewrite Hm0, Hreg, last_snoc.
    erewrite provider_get_unfold by (simpl; by rewrite Hp0).
    rewrite Hst. simpl. rewrite Hf. unfold lift_world. simpl. by destruct (fn w).
Qed.

(** Retrievals through a transient storage are builds of its factory,
    one after the other. *)
Lemma transient_builds fuel T id hs h f N s :
  static_id s T = Some id ->
  m_Registrations s !! id = Some (hs ++ [h]) ->
  (exists p, provider_objects s !! h = Some p /\ provider_storage p = InstanceStorage f) ->
  repeat_call N (get_unchecked constructor (get constructor fuel) T) s
  = repeat_call N (factory_build constructor (get constructor fuel) f) s.
Proof.
  revert s. induction N as [|n IH]; intros s Hid Hreg (p & Hp & Hst); [done|].
  cbn [repeat_call].
  assert (get_unchecked constructor (get constructor fuel) T s
          = factory_build constructor (get constructor fuel) f s) as ->.
  { rewrite get_unchecked_unfold, (type_id_known T s id Hid). simpl.
    rewrite Hreg, last_snoc. by rewrite (provider_get_unfold _ _ _ _ Hp), Hst. }
  destruct (factory_build _ _ f s) as [[r s1]|] eqn:Hb; [|done].
  pose proof (factory_build_frame _ _ _ _ _ _ Hb) as Hfr.
  rewrite IH; [done|by apply (frame_static_id _ _ Hfr)| |].
  - by rewrite (frame_registrations _ _ Hfr).
  - destruct (frame_lookup _ _ _ _ Hfr Hp) as (p1 & Hp1 & Hbind).
    pose proof (binding_of_storage _ _ Hbind) as Hst1. rewrite Hst in Hst1.
    by exists p1.
Qed.

(** C4, as the code has it.  Let the provider selected for [T] hold a
    transient storage.  Every retrieval invokes its factory, and the
    provider keeps nothing: [N + 1] consecutive retrievals are [N + 1]
    invocations of the factory, one after the other, whatever their
    outcomes.  When the factory wraps a callable, the retrievals
    return the results of [N + 1] invocations in that order, to the
    caller of [get<T>()] as instances or, for a null result, as the
    failure; the instances are pairwise distinct when every
    invocation of the callable allocates a new object.  When the
    factory is the default construction of a type without constructor
    parameters, the retrievals return [N + 1] new objects, pairwise
    distinct. *)
Theorem transient_retrievals fuel T s hs h p f N :
  m_Registrations s !! (type_id T s).1 = Some (hs ++ [h]) ->
  provider_objects s !! h = Some p ->
  provider_storage p = InstanceStorage f ->
  get_unchecked constructor (get constructor fuel) T s
  = factory_build constructor (get constructor fuel) f (type_id T s).2
  /\ repeat_call (S N) (get_unchecked constructor (get constructor fuel) T) s
     = repeat_call (S N) (factory_build constructor (get constructor fuel) f)
                   (type_id T s).2
  /\ (forall D fn,
        f = FunctionFactory D fn ->
        repeat_call (S N) (get_unchecked constructor (get constructor fuel) T) s
        = Some (Ok <$> (invoke_times (S N) fn (world s)).1,
                set_world (invoke_times (S N) fn (world s)).2 (type_id T s).2)
        /\ (is_vector T = false -> is_shared T = false -> is_reference T = false ->
            repeat_call (S N) (get constructor (S fuel) T) s
            = Some (checked <$> (invoke_times (S N) fn (world s)).1,
                    set_world (invoke_times (S N) fn (world s)).2 (type_id T s).2))
        /\ (allocates fn -> NoDup (invoke_times (S N) fn (world s)).1))
  /\ (forall D,
        f = ConstructorFactory D -> constructor D = Some [] ->
        repeat_call (S N) (get_unchecked constructor (get constructor fuel) T) s
        = Some ((fun i => Ok (Some (length (heap (world s)) + i))) <$> seq 0 (S N),
                set_world (invoke_times (S N) (make_shared D []) (world s)).2
                          (type_id T s).2)
        /\ (is_vector T = false -> is_shared T = false -> is_reference T = false ->
            repeat_call (S N) (get constructor (S fuel) T) s
            = Some ((fun i => Ok (VShared (Some (length (heap (world s)) + i))))
                      <$> seq 0 (S N),
                    set_world (invoke_times (S N) (make_shared D []) (world s)).2
                              (type_id T s).2))
        /\ NoDup ((fun i => Some (length (heap (world s)) + i)) <$> seq 0 (S N))).
Proof.
  intros Hreg Hp Hst.
  assert (get_unchecked constructor (get constructor fuel) T s
          = factory_build constructor (get constructor fuel) f (type_id T s).2) as Hone.
  { rewrite get_unchecked_unfold, Hreg, last_snoc.
    erewrite provider_get_unfold by (by rewrite type_id_provider_objects).
    by rewrite Hst. }
  assert (forall (fn : Producer U) {A} (m : M U A) (g : shared_ptr -> Result A),
             factory_build constructor (get constructor fuel) f = lift_world fn ->
             (forall s', m s' = match get_unchecked constructor (get constructor fuel) T s' with
                                | Some (Ok v, s'') => Some (g v, s'')
                                | Some (Throw e, s'') => Some (Throw e, s'')
                                | None => None
                                end) ->
             repeat_call (S N) m s
             = Some (g <$> (invoke_times (S N) fn (world s)).1,
                     set_world (invoke_times (S N) fn (world s)).2 (type_id T s).2))
    as Hrun.
  { intros fn A m g Hf Hm.
    destruct (transient_producer_step (get constructor fuel) T s hs h p f fn
                Hreg Hp Hst Hf) as [Hfirst Hstep].
    apply repeat_call_producer.
    - intros w. by rewrite Hm, Hstep.
    - by rewrite Hm, Hfirst. }
  assert (forall s', get_unchecked constructor (get constructor fuel) T s'
                     = match get_unchecked constructor (get constructor fuel) T s' with
                       | Some (Ok v, s'') => Some (Ok v, s'')
                       | Some (Throw e, s'') => Some (Throw e, s'')
                       | None => None
                       end) as Hraw.
  { intros s'. by destruct (get_unchecked _ _ T s') as [[[v|e] s'']|]. }
  split; [done|split; [|split]].
  - cbn [repeat_call]. rewrite Hone.
    destruct (factory_build _ _ f (type_id T s).2) as [[r s1]|] eqn:Hb; [|done].
    pose proof (factory_build_frame _ _ _ _ _ _ Hb) as Hfr.
    rewrite (transient_builds fuel T (type_id T s).1 hs h f N s1); [done| | |].
    + apply (frame_static_id _ _ Hfr), type_id_assigned.
    + by rewrite (frame_registrations _ _ Hfr), type_id_registrations.
    + destruct (frame_lookup (type_id T s).2 s1 h p Hfr) as (p1 & Hp1 & Hbind).
      { by rewrite type_id_provider_objects. }
      pose proof (binding_of_storage _ _ Hbind) as Hst1. rewrite Hst in Hst1.
      by exists p1.
  - intros D fn ->. split; [|split].
    + by apply (Hrun fn _ _ Ok).
    + intros Hv Hs Hr. apply (Hrun fn _ _ checked); [done|].
      intros s'. by rewrite (get_plain_outcome constructor fuel T s' Hv Hs Hr).
    + intros Hfn.
      destruct (invoke_times_allocates fn (S N) (world s) Hfn) as [-> _].
      apply NoDup_fmap_2; [|apply NoDup_seq].
      intros i j [=]. lia.
  - intros D -> HD.
    assert (factory_build (U := U) constructor (get constructor fuel)
                          (ConstructorFactory D)
            = lift_world (make_shared D [])) as Hf.
    { simpl. by rewrite HD. }
    destruct (invoke_times_allocates (make_shared D []) (S N) (world s)
                (make_shared_allocates D [])) as [Hps _].
    split; [|split].
    + rewrite (Hrun _ _ _ Ok Hf Hraw), Hps. by rewrite <- list_fmap_compose.
    + intros Hv Hs Hr. rewrite (Hrun (make_shared D []) _ _ checked Hf), Hps.
      * by rewrite <- list_fmap_compose.
      * intros s'. by rewrite (get_plain_outcome constructor fuel T s' Hv Hs Hr).
    + apply NoDup_fmap_2; [|apply NoDup_seq].
      intros i j [=]. lia.
Qed.

End Lifetime.

(** ** Collection retrieval *)

Section Collection.

Context {U : Type}.
Variable constructor : CppType -> option (list CppType).
Implicit Types (s : State U) (T : CppType).

Lemma set_world_id s : set_world (world s) s = s.
Proof. by destruct s. Qed.

Lemma set_world_set_world (w w' : World U) s :
  set_world w' (set_world w s) = set_world w' s.
Proof. done. Qed.

Lemma lift_world_unfold {A} (f : World U -> A * World U) s :
  lift_world f s = Some (Ok (f (world s)).1, set_world (f (world s)).2 s).
Proof. unfold lift_world. by destruct (f (world s)). Qed.

Lemma for_each_throw {A B} (f : A -> M U B) l s e s' :
  for_each f l s = Some (Throw e, s') ->
  exists a s1, a ∈ l /\ f a s1 = Some (Throw e, s').
Proof.
  revert s. induction l as [|a l IH]; intros s; simpl; [done|].
  intros H. apply bind_inv in H as [(b & s1 & Hb & H)|(e' & Hb & [= <-])].
  - apply bind_inv in H as [(bs & s2 & Hbs & H)|(e' & Hbs & [= <-])]; [done|].
    destruct (IH _ Hbs) as (a' & s3 & Hin & Ha').
    exists a', s3. split; [by right|done].
  - exists a, s. split; [by left|done].
Qed.

(** Transient providers of callables, asked one after the other. *)
Lemma for_each_function_providers (get_rec : CppType -> M U Value) s0 hs fns :
  Forall2 (function_provider s0) hs fns ->
  forall w,
    for_each (provider_get constructor get_rec) hs (set_world w s0)
    = Some (Ok (invoke_each fns w).1, set_world (invoke_each fns w).2 s0).
Proof.
  induction 1 as [|h fn hs fns (p & D & Hp & Hst) _ IH]; intros w; simpl; [done|].
  erewrite bind_ok; last first.
  { erewrite provider_get_unfold by exact Hp. rewrite Hst. simpl.
    apply lift_world_unfold. }
  simpl. rewrite set_world_set_world, (bind_ok _ _ _ _ _ (IH _)).
  destruct (fn w) as [p1 w1]. simpl. by destruct (invoke_each fns w1).
Qed.

(** C5, as the code has it.  [get<std::vector<T>>()] asks every
    provider registered for [T]'s identity, first registered first,
    and returns their results in that order; a null result is an
    element like any other.  Without a registration it returns the
    empty vector and constructs nothing.  It has no check of its own:
    an exception leaves it only when the [get] of one of the providers
    raised it. *)
Theorem collection_retrieval fuel T s :
  is_shared T = false ->
  (m_Registrations s !! (type_id T s).1 = None ->
   get constructor (S fuel) (Vector T) s = Some (Ok (VVector []), (type_id T s).2))
  /\ (forall hs fns,
        m_Registrations s !! (type_id T s).1 = Some hs ->
        Forall2 (function_provider s) hs fns ->
        get constructor (S fuel) (Vector T) s
        = Some (Ok (VVector (invoke_each fns (world s)).1),
                set_world (invoke_each fns (world s)).2 (type_id T s).2))
  /\ (forall hs,
        m_Registrations s !! (type_id T s).1 = Some hs ->
        get constructor (S fuel) (Vector T) s
        = match for_each (provider_get constructor (get constructor fuel)) hs
                         (type_id T s).2 with
          | Some (Ok ps, s') => Some (Ok (VVector ps), s')
          | Some (Throw e, s') => Some (Throw e, s')
          | None => None
          end)
  /\ (forall e s',
        get constructor (S fuel) (Vector T) s = Some (Throw e, s') ->
        exists hs h s1,
          m_Registrations s !! (type_id T s).1 = Some hs /\ h ∈ hs
          /\ provider_get constructor (get constructor fuel) h s1 = Some (Throw e, s')).
Proof.
  intros Hs.
  assert (get constructor (S fuel) (Vector T) s
          = match get_vector constructor (get constructor fuel) T s with
            | Some (Ok ps, s') => Some (Ok (VVector ps), s')
            | Some (Throw e, s') => Some (Throw e, s')
            | None => None
            end) as Hget.
  { simpl. unfold get_with. rewrite viable_cases, Hs. simpl. unfold bind.
    by destruct (get_vector _ _ T s) as [[[ps|e] s']|]. }
  rewrite Hget, get_vector_unfold. repeat split.
  - by intros ->.
  - intros hs fns -> Hfns.
    rewrite <- (set_world_id (type_id T s).2) at 1.
    erewrite for_each_function_providers; [by rewrite type_id_world|].
    eapply Forall2_impl; [exact Hfns|]. intros h fn (p & D & Hp & Hst).
    exists p, D. by rewrite type_id_provider_objects.
  - by intros hs ->.
  - intros e s'. destruct (m_Registrations s !! (type_id T s).1) as [hs|]; [|done].
    destruct (for_each _ hs _) as [[[ps|e'] s1]|] eqn:Hfe; intros H; simplify_eq.
    destruct (for_each_throw _ _ _ _ _ Hfe) as (h & s2 & Hin & Hh).
    by exists hs, h, s2.
Qed.

End Collection.

(** C5 as stated fails.  After
    [injector.add<Dep, Dep>(null_factory)] and
    [injector.add<Base, Client>()], where the constructor of [Client]
    takes a [std::shared_ptr<Dep>], the collection retrieval of [Base]
    ends with the exception that the retrieval of the argument
    raised. *)
Lemma collection_retrieval_raises :
  client Example.constructor Example.is_base_of
    [CallRegister (AddDerivedFn Example.Dep Example.Dep Example.null_factory);
     CallRegister (AddDerived Example.Base Example.Client)]
    3 1 (Vector Example.Base) (mkWorld [] 0)
  = Some ([Throw ComponentCreationException], mkWorld [] 0).
Proof. reflexivity. Qed.

(** ** Implicit construction *)

Section Implicit.

Context {U : Type}.
Variable constructor : CppType -> option (list CppType).
Implicit Types (s : State U) (T : CppType).

Lemma unregistered_lookup T s :
  well_formed s -> unregistered s T = true ->
  m_Registrations s !! (type_id T s).1 = None.
Proof.
  intros Hwf. unfold unregistered.
  destruct (static_id s T) as [id|] eqn:E.
  - rewrite (type_id_known T s id E). simpl. by intros ?%bool_decide_eq_true.
  - intros _. by apply type_id_fresh.
Qed.

Lemma lookup_unregistered T s :
  m_Registrations s !! (type_id T s).1 = None -> unregistered s T = true.
Proof.
  unfold unregistered. destruct (static_id s T) as [id|] eqn:E; [|done].
  rewrite (type_id_known T s id E). simpl. intros H. by apply bool_decide_eq_true.
Qed.

(** A retrieval does not register anything: a type without
    registration stays without. *)
Lemma unregistered_frame T s s' :
  well_formed s -> well_formed s' -> frame s s' ->
  unregistered s T = true -> unregistered s' T = true.
Proof.
  intros Hwf Hwf' Hfr Hun. unfold unregistered.
  destruct (static_id s' T) as [id|] eqn:E; [|done].
  apply bool_decide_eq_true. rewrite (frame_registrations _ _ Hfr).
  destruct (m_Registrations s !! id) as [hs|] eqn:Hk; [|done].
  destruct (wf_key_assigned s Hwf _ _ Hk) as [X HX].
  pose proof (frame_static_id _ _ Hfr _ _ HX) as HX'.
  assert (X = T) as -> by (by eapply (wf_id_inj s' Hwf')).
  unfold unregistered in Hun. rewrite HX in Hun.
  apply bool_decide_eq_true in Hun. congruence.
Qed.

Lemma constructible_inv n s T :
  constructible constructor (S n) s T = true ->
  is_vector T = false /\ is_shared T = false /\ is_reference T = false
  /\ unregistered s T = true
  /\ exists params,
      constructor T = Some params
      /\ Forall (fun X => exists D, X = SharedPtr D
                                    /\ constructible constructor n s D = true) params.
Proof.
  simpl. intros H.
  repeat (apply andb_prop in H as [H ?]).
  destruct (constructor T) as [params|]; [|congruence].
  apply negb_true_iff in H, H3, H2.
  do 4 (split; [done|]).
  exists params. split; [done|].
  apply Forall_forall. intros X HX.
  apply list_elem_of_In in HX.
  pose proof (proj1 (forallb_forall _ _) H0 X HX) as HD.
  destruct X; try done. eauto.
Qed.

Lemma constructible_frame n s s' T :
  well_formed s -> well_formed s' -> frame s s' ->
  constructible constructor n s T = true -> constructible constructor n s' T = true.
Proof.
  intros Hwf Hwf' Hfr. revert T. induction n as [|n IH]; intros T; [done|].
  intros H. pose proof H as H'.
  apply constructible_inv in H' as (Hv & Hs & Hr & Hun & params & Hc & Hall).
  simpl. rewrite Hv, Hs, Hr, Hc, (unregistered_frame T s s' Hwf Hwf' Hfr Hun). simpl.
  apply forallb_forall. intros X HX. apply list_elem_of_In in HX.
  destruct (proj1 (Forall_forall _ _) Hall X HX) as (D & -> & HD). by apply IH.
Qed.

Lemma returns_shared D :
  is_vector D = false -> is_shared D = false ->
  returns (SharedPtr D) (SharedPtr D) = true /\ returns D (SharedPtr D) = true.
Proof.
  intros Hv Hs. unfold returns, get_type.
  rewrite (viable_plain D Hv Hs), (viable_cases (SharedPtr D)). simpl.
  split; by apply bool_decide_eq_true.
Qed.

Lemma injectable_shared T D :
  is_shared T = false -> injectable T (SharedPtr D) = true.
Proof.
  intros Hs. unfold injectable, is_same. simpl.
  by rewrite (bool_decide_eq_false_2 (SharedPtr D = T)) by (by intros <-).
Qed.

(** Objects stay where they are when the heap grows. *)
Lemma built_extend n (H H' : list Object) a T :
  built constructor n H a T -> built constructor n (H ++ H') a T.
Proof.
  revert a T. induction n as [|n IH]; intros a T; [done|].
  intros (params & args & Hc & Hl & Hall). exists params, args.
  split; [done|]. split; [by apply lookup_app_l_Some|].
  eapply Forall2_impl; [exact Hall|].
  intros P v (D & b & -> & -> & Hb). exists D, b. eauto.
Qed.

(** The resolver of an argument the conversion is enabled for is the
    retrieval of the parameter type. *)
Lemma for_each_resolve_argument (get_rec : CppType -> M U Value) T params :
  Forall (fun P => injectable T P = true /\ returns P P = true) params ->
  for_each (resolve_argument get_rec T) params = for_each get_rec params.
Proof.
  induction 1 as [|P params [Hi Hr] _ IH]; simpl; [done|].
  unfold resolve_argument at 1. by rewrite Hi, Hr, IH.
Qed.

(** The arguments of a constructor whose parameters head chains that
    [fuel] levels of retrieval construct. *)
Lemma resolve_arguments_chain n fuel T params :
  (forall D s, well_formed s -> constructible constructor n s D = true ->
               exists a s' new,
                 get constructor fuel D s = Some (Ok (VShared (Some a)), s')
                 /\ heap (world s') = heap (world s) ++ new
                 /\ built constructor n (heap (world s')) a D
                 /\ length (heap (world s)) <= a) ->
  is_shared T = false ->
  forall s,
    well_formed s ->
    Forall (fun X => exists D, X = SharedPtr D
                               /\ constructible constructor n s D = true) params ->
    Forall (fun P => injectable T P = true /\ returns P P = true) params
    /\ exists args s1 new,
        for_each (get constructor (S fuel)) params s = Some (Ok args, s1)
        /\ heap (world s1) = heap (world s) ++ new
        /\ Forall2 (fun P v => exists D b,
                        P = SharedPtr D /\ v = VShared (Some b)
                        /\ built constructor n (heap (world s1)) b D) params args.
Proof.
  intros IH HsT. induction params as [|X params IHp]; intros s Hwf Hall; simpl.
  - split; [done|]. exists [], s, []. by rewrite app_nil_r.
  - apply Forall_cons in Hall as [(D & -> & HD) Hall].
    destruct n as [|n]; [done|].
    pose proof HD as HD'. apply constructible_inv in HD' as (Hv & Hs & _).
    destruct (returns_shared D Hv Hs) as [Hr1 Hr2].
    destruct (IH D s Hwf HD) as (a & s' & new1 & Hget & Hheap & Hbuilt & _).
    assert (get constructor (S fuel) (SharedPtr D) s
            = Some (Ok (VShared (Some a)), s')) as Hres.
    { simpl. unfold get_with. rewrite viable_cases. simpl. unfold delegate.
      by rewrite Hr2. }
    pose proof (get_frame constructor fuel D s _ _ Hget) as Hfr.
    pose proof (get_well_formed constructor fuel D s _ _ Hget Hwf) as Hwf'.
    destruct (IHp s' Hwf') as (Hinj & args' & s1 & new2 & Hrest & Hheap' & Hall').
    { eapply Forall_impl; [exact Hall|]. intros X (D' & -> & HD'). exists D'.
      split; [done|]. by apply (constructible_frame _ s s' D' Hwf Hwf' Hfr). }
    split.
    { apply Forall_cons. split; [|done]. split; [by apply injectable_shared|done]. }
    exists (VShared (Some a) :: args'), s1, (new1 ++ new2).
    split; [|split].
    + by rewrite (bind_ok _ _ _ _ _ Hres), (bind_ok _ _ _ _ _ Hrest).
    + by rewrite Hheap', Hheap, app_assoc.
    + apply Forall2_cons. split; [|done].
      exists D, a. split; [done|]. split; [done|].
      rewrite Hheap'. by apply built_extend.
Qed.

Lemma constructible_retrievable n T s :
  well_formed s -> constructible constructor n s T = true ->
  exists a s' new,
    get constructor (2 * n) T s = Some (Ok (VShared (Some a)), s')
    /\ heap (world s') = heap (world s) ++ new
    /\ built constructor n (heap (world s')) a T
    /\ length (heap (world s)) <= a.
Proof.
  revert T s. induction n as [|n IH]; intros T s Hwf H; [done|].
  pose proof H as H'.
  apply constructible_inv in H' as (Hv & Hs & Hr & Hun & params & Hc & Hall).
  replace (2 * S n) with (S (S (2 * n))) by lia.
  rewrite (get_plain_outcome constructor _ T s Hv Hs Hr), get_unchecked_unfold.
  rewrite (unregistered_lookup T s Hwf Hun). simpl. rewrite Hc.
  destruct (resolve_arguments_chain n (2 * n) T params IH Hs (type_id T s).2)
    as (Hinj & args & s1 & new & Hargs & Hheap & Hbuilt).
  { by apply well_formed_type_id. }
  { eapply Forall_impl; [exact Hall|]. intros X (D & -> & HD). exists D.
    split; [done|].
    apply (constructible_frame _ s (type_id T s).2 D Hwf);
      [by apply well_formed_type_id|apply frame_type_id|done]. }
  rewrite (for_each_resolve_argument _ T params Hinj).
  rewrite (bind_ok _ _ _ _ _ Hargs), lift_world_unfold. simpl.
  eexists _, _, (new ++ [mkObject T args]). split; [done|]. simpl.
  split; [|split].
  - by rewrite Hheap, type_id_world, app_assoc.
  - exists params, args. split; [done|]. split.
    + by rewrite lookup_app_r, Nat.sub_diag by lia.
    + eapply Forall2_impl; [exact Hbuilt|].
      intros P v (D & b & -> & -> & Hb). exists D, b.
      split; [done|]. split; [done|]. by apply built_extend.
  - rewrite Hheap, length_app, type_id_world. lia.
Qed.


End Implicit.

(** ** Programs keep the registry well formed *)

Section Programs.

Context {U : Type}.
Variable constructor : CppType -> option (list CppType).
Variable is_base_of : CppType -> CppType -> bool.
Implicit Types (s : State U) (T : CppType) (r : Registration U).

Lemma well_formed_push_back X id p s s1 :
  well_formed s -> static_id s X = Some id ->
  push_back_provider id p s = Some (Ok tt, s1) -> well_formed s1.
Proof.
  intros Hwf HX [= <-]. split; simpl.
  - apply (wf_id_bound s Hwf).
  - apply (wf_id_inj s Hwf).
  - intros k hs. rewrite lookup_insert. case_decide; [subst; by eauto|].
    apply (wf_key_assigned s Hwf).
  - intros k hs. rewrite lookup_insert. case_decide.
    + intros [= <-]. by destruct (default [] _).
    + apply (wf_nonempty s Hwf).
  - intros k hs h. rewrite length_app, lookup_insert. simpl. case_decide.
    + intros [= <-] [Hin|Hin%list_elem_of_singleton]%elem_of_app; [|lia].
      destruct (m_Registrations s !! id) as [hs|] eqn:Hk; simpl in Hin.
      * pose proof (wf_handles s Hwf _ _ _ Hk Hin). lia.
      * by apply not_elem_of_nil in Hin.
    + intros Hk Hin. pose proof (wf_handles s Hwf _ _ _ Hk Hin). lia.
Qed.

Lemma well_formed_register r s res s1 :
  well_formed s -> register is_base_of r s = Some (res, s1) -> well_formed s1.
Proof.
  intros Hwf. rewrite register_unfold.
  destruct (well_typed is_base_of r); [|done]. intros H.
  assert (res = Ok tt) as -> by (by injection H).
  eapply well_formed_push_back; [|apply type_id_assigned|exact H].
  by apply well_formed_type_id.
Qed.

Lemma well_formed_try_register r s res s1 :
  well_formed s -> try_register is_base_of r s = Some (res, s1) -> well_formed s1.
Proof.
  intros Hwf. rewrite try_register_unfold.
  destruct (try_well_typed is_base_of r); [|done].
  destruct (bool_decide _).
  - intros [= _ <-]. by apply well_formed_type_id.
  - apply well_formed_register. by apply well_formed_type_id.
Qed.

Lemma unregistered_register T r s res s1 :
  well_formed s -> target r <> T -> unregistered s T = true ->
  register is_base_of r s = Some (res, s1) -> unregistered s1 T = true.
Proof.
  intros Hwf Hne Hun. rewrite register_unfold.
  destruct (well_typed is_base_of r); [|done].
  pose proof (well_formed_type_id (target r) s Hwf) as Hwf0.
  pose proof (unregistered_frame T s _ Hwf Hwf0 (frame_type_id (target r) s) Hun) as Hun0.
  pose proof (type_id_assigned (target r) s) as Hid.
  destruct (type_id (target r) s) as [id s0]. simpl in *.
  intros [= _ <-]. unfold unregistered in *. simpl.
  destruct (static_id s0 T) as [k|] eqn:Hk; [|done].
  apply bool_decide_eq_true in Hun0. apply bool_decide_eq_true.
  rewrite lookup_insert_ne; [done|].
  intros <-. apply Hne. by eapply (wf_id_inj s0 Hwf0).
Qed.

Lemma unregistered_try_register T r s res s1 :
  well_formed s -> target r <> T -> unregistered s T = true ->
  try_register is_base_of r s = Some (res, s1) -> unregistered s1 T = true.
Proof.
  intros Hwf Hne Hun. rewrite try_register_unfold.
  destruct (try_well_typed is_base_of r); [|done].
  pose proof (well_formed_type_id (target r) s Hwf) as Hwf0.
  pose proof (unregistered_frame T s _ Hwf Hwf0 (frame_type_id (target r) s) Hun) as Hun0.
  destruct (bool_decide _).
  - by intros [= _ <-].
  - by apply unregistered_register.
Qed.

(** A call keeps the state well formed. *)
Lemma call_well_formed c s s1 :
  well_formed s -> call constructor is_base_of c s = Some s1 -> well_formed s1.
Proof.
  intros Hwf Hc. destruct c as [r|r|fuel X|X]; simpl in Hc; unfold after in Hc.
  - destruct (register is_base_of r s) as [[res s2]|] eqn:Hr; [|done].
    injection Hc as ->. eauto using well_formed_register.
  - destruct (try_register is_base_of r s) as [[res s2]|] eqn:Hr; [|done].
    injection Hc as ->. eauto using well_formed_try_register.
  - destruct (get constructor fuel X s) as [[res s2]|] eqn:Hg; [|done].
    injection Hc as ->. apply (get_well_formed constructor fuel X s _ _ Hg Hwf).
  - rewrite contains_unfold in Hc. injection Hc as <-.
    by apply well_formed_type_id.
Qed.

(** A call that does not bind [T] leaves [T] without registration. *)
Lemma call_unregistered T c s s1 :
  well_formed s -> unregistered s T = true -> ~ binds c T ->
  call constructor is_base_of c s = Some s1 -> unregistered s1 T = true.
Proof.
  intros Hwf Hun Hb Hc.
  pose proof (call_well_formed c s s1 Hwf Hc) as Hwf1.
  destruct c as [r|r|fuel X|X]; simpl in Hc, Hb; unfold after in Hc.
  - destruct (register is_base_of r s) as [[res s2]|] eqn:Hr; [|done].
    injection Hc as ->. eauto using unregistered_register.
  - destruct (try_register is_base_of r s) as [[res s2]|] eqn:Hr; [|done].
    injection Hc as ->. eauto using unregistered_try_register.
  - destruct (get constructor fuel X s) as [[res s2]|] eqn:Hg; [|done].
    injection Hc as ->.
    by apply (unregistered_frame T s s1 Hwf Hwf1 (get_frame constructor fuel X s _ _ Hg)).
  - rewrite contains_unfold in Hc. injection Hc as <-.
    by apply (unregistered_frame T s _ Hwf Hwf1 (frame_type_id X s)).
Qed.

(** Every state a program reaches is well formed. *)
Lemma run_well_formed cs s s' :
  well_formed s -> run constructor is_base_of cs s = Some s' -> well_formed s'.
Proof.
  revert s. induction cs as [|c cs IH]; intros s Hwf; simpl.
  - by intros [= <-].
  - destruct (call constructor is_base_of c s) as [s1|] eqn:Hc; [|done].
    apply IH. by eapply call_well_formed.
Qed.

(** A program that does not bind [T] leaves [T] without registration. *)
Lemma run_unregistered T cs s s' :
  well_formed s -> unregistered s T = true ->
  (forall c, c ∈ cs -> ~ binds c T) ->
  run constructor is_base_of cs s = Some s' ->
  unregistered s' T = true.
Proof.
  revert s. induction cs as [|c cs IH]; intros s Hwf Hun Hcs; simpl.
  - by intros [= <-].
  - destruct (call constructor is_base_of c s) as [s1|] eqn:Hc; [|done].
    apply IH.
    + by eapply call_well_formed.
    + eapply call_unregistered; [done|done| |done]. apply Hcs. by left.
    + intros c' Hin. apply Hcs. by right.
Qed.

(** C7.  [contains<T>()] always returns, without an exception, and
    touches neither the binding table nor a provider nor anything a
    producer could have touched: it constructs nothing.  In a state a
    program can reach it returns [true] exactly when [T]'s identity
    has a registered provider.  It returns [false] after any program
    that has not bound [T], and [true] right after a registration for
    [T], conditional or not. *)
Theorem contains_registered T s :
  (exists b,
      contains T s = Some (Ok b, (type_id T s).2)
      /\ m_Registrations (type_id T s).2 = m_Registrations s
      /\ provider_objects (type_id T s).2 = provider_objects s
      /\ world (type_id T s).2 = world s
      /\ (well_formed s ->
          (b = true <-> exists id hs h,
                          static_id s T = Some id
                          /\ m_Registrations s !! id = Some hs /\ h ∈ hs)))
  /\ (forall w cs s',
        run constructor is_base_of cs (initial_state w) = Some s' ->
        (forall c, c ∈ cs -> ~ binds c T) ->
        contains T s' = Some (Ok false, (type_id T s').2))
  /\ (forall r s1,
        target r = T ->
        register is_base_of r s = Some (Ok tt, s1)
        \/ try_register is_base_of r s = Some (Ok tt, s1) ->
        contains T s1 = Some (Ok true, s1)).
Proof.
  split; [|split].
  - eexists. split; [apply contains_unfold|].
    rewrite type_id_registrations, type_id_provider_objects, type_id_world.
    do 3 (split; [done|]). intros Hwf.
    rewrite bool_decide_eq_true. split.
    + intros [hs Hk].
      destruct (static_id s T) as [id|] eqn:E.
      * rewrite (type_id_known T s id E) in Hk. simpl in Hk.
        destruct hs as [|h hs]; [by apply (wf_nonempty s Hwf) in Hk|].
        exists id, (h :: hs), h. repeat split; [done|by left].
      * by rewrite (type_id_fresh T s Hwf E) in Hk.
    + intros (id & hs & h & E & Hk & _).
      rewrite (type_id_known T s id E). simpl. by exists hs.
  - intros w cs s' Hrun Hcs.
    pose proof (run_well_formed cs _ s' (well_formed_initial w) Hrun) as Hwf.
    pose proof (run_unregistered T cs _ s' (well_formed_initial w) eq_refl Hcs Hrun)
      as Hun.
    rewrite contains_unfold, (unregistered_lookup T s' Hwf Hun).
    by rewrite bool_decide_eq_false_2 by (by intros [? ?]).
  - intros r s1 <-.
    assert (forall s0, register is_base_of r s0 = Some (Ok tt, s1) ->
                       contains (target r) s1 = Some (Ok true, s1)) as Hreg.
    { intros s0. rewrite register_unfold.
      destruct (well_typed is_base_of r); [|done].
      pose proof (type_id_assigned (target r) s0) as Hid.
      destruct (type_id (target r) s0) as [id s2]. simpl in *.
      intros [= <-]. rewrite contains_unfold.
      rewrite (type_id_known (target r) _ id) by done. simpl.
      by rewrite lookup_insert_eq, bool_decide_eq_true_2. }
    intros [H|H]; [by eapply Hreg|].
    rewrite try_register_unfold in H.
    destruct (try_well_typed is_base_of r); [|done].
    destruct (bool_decide _) eqn:Hb; [|by eapply Hreg].
    injection H as <-. rewrite contains_unfold, type_id_stable. simpl.
    by rewrite type_id_registrations, Hb.
Qed.

(** C8.  The "only if absent" forms [try_add<T>()], [try_add<T>(fn)]
    and [try_add_singleton<T>(fn)] cannot be instantiated: they have
    no outcome in any state, whether the target is registered or not.
    Each of the other six forms, when the identity of its target
    already has an entry in the binding table, returns and leaves the
    whole state as it was: the table and the providers are the same,
    and the world is the one the new producer would have changed had
    it been invoked. *)
Theorem try_register_present r s :
  (forall T, try_register is_base_of (Add T) s = None)
  /\ (forall T fn, try_register is_base_of (AddFn T fn) s = None)
  /\ (forall T fn, try_register is_base_of (AddSingletonFn T fn) s = None)
  /\ (forall id hs,
        static_id s (target r) = Some id ->
        m_Registrations s !! id = Some hs ->
        try_well_typed is_base_of r = true ->
        try_register is_base_of r s = Some (Ok tt, s)).
Proof.
  do 3 (split; [done|]).
  intros id hs Hid Hk Hty. rewrite try_register_unfold, Hty.
  rewrite (type_id_known (target r) s id Hid). simpl.
  by rewrite Hk, bool_decide_eq_true_2.
Qed.

(** C10.  A single-instance retrieval of a class type without
    registration, whatever its outcome, leaves the binding table and
    the bindings of all providers as they were, and [contains<T>()]
    is still [false] after it. *)
Theorem fallback_leaves_registry fuel T s (res : Result Value) s' :
  m_Registrations s !! (type_id T s).1 = None ->
  is_vector T = false -> is_shared T = false ->
  get constructor fuel T s = Some (res, s') ->
  m_Registrations s' = m_Registrations s
  /\ binding_of <$> provider_objects s' = binding_of <$> provider_objects s
  /\ contains T s' = Some (Ok false, s').
Proof.
  intros Hun Hv Hs Hget.
  pose proof (get_frame constructor fuel T s _ _ Hget) as Hfr.
  do 2 (split; [apply Hfr|]).
  assert (frame (type_id T s).2 s') as Hfr0.
  { destruct fuel as [|fuel]; [done|].
    destruct (is_reference T) eqn:Hr.
    { simpl in Hget. unfold get_with, get_plain in Hget.
      by rewrite (viable_plain T Hv Hs), Hr in Hget. }
    rewrite (get_plain_outcome constructor fuel T s Hv Hs Hr) in Hget.
    rewrite get_unchecked_unfold, Hun in Hget.
    destruct (factory_build _ _ _ _) as [[[p|e] s1]|] eqn:Hb; [| |done].
    - injection Hget as _ <-. apply (factory_build_frame _ _ _ _ _ _ Hb).
    - injection Hget as _ <-. apply (factory_build_frame _ _ _ _ _ _ Hb). }
  rewrite contains_unfold.
  rewrite (type_id_known T s' (type_id T s).1)
    by apply (frame_static_id _ _ Hfr0), type_id_assigned.
  simpl. rewrite (frame_registrations _ _ Hfr), Hun.
  by rewrite bool_decide_eq_false_2 by (by intros [? ?]).
Qed.

End Programs.

(** ** The wrapper overloads *)

Section Wrappers.

Context {U : Type}.
Variable constructor : CppType -> option (list CppType).
Implicit Types (s : State U) (T : CppType).

(** [get<std::shared_ptr<T>>()] is [get<T>()], one frame deeper. *)
Lemma get_shared_delegates fuel T s :
  is_vector T = false -> is_shared T = false ->
  get constructor (S fuel) (SharedPtr T) s = get constructor fuel T s.
Proof.
  intros Hv Hs. simpl. unfold get_with, delegate. rewrite viable_cases. simpl.
  by rewrite (proj2 (returns_shared T Hv Hs)).
Qed.

(** [get<std::vector<std::shared_ptr<T>>>()] is
    [get<std::vector<T>>()], one frame deeper. *)
Lemma get_vector_shared_delegates fuel T s :
  is_shared T = false ->
  get constructor (S fuel) (Vector (SharedPtr T)) s
  = get constructor fuel (Vector T) s.
Proof.
  intros Hs. simpl. unfold get_with, delegate. rewrite viable_cases. simpl.
  unfold returns, get_type. rewrite viable_cases, Hs. simpl.
  by rewrite bool_decide_eq_true_2.
Qed.

Lemma get_const_reference_none fuel T s :
  get constructor fuel (LRef (Const T)) s = None.
Proof. by destruct fuel. Qed.

End Wrappers.

Lemma remove_reference_not_stripped T :
  RemoveReference (RemoveConst (LRef (Const T))) <> T.
Proof.
  intros H. apply (f_equal type_size) in H. simpl in H. lia.
Qed.

(** C9, second half.  The condition of the overload for [get<const
    T&>] tests [std::is_const_v] on the trait class
    [std::remove_reference<T>], which is never const: the overload is
    never selected.  For [const T&] the first overload is the viable
    one, and it cannot be instantiated at a reference, so the call has
    no outcome, while [get<Dep>()] returns an instance.  Were the
    overload selected, it would retrieve the trait class
    [std::remove_reference<std::remove_const<T>>], not [T]. *)
Theorem get_const_reference_not_delegated :
  (forall T, enabled GetConstReference T = false)
  /\ (forall T, viable (LRef (Const T)) = [GetPlain])
  /\ (forall T, RemoveReference (RemoveConst (LRef (Const T))) <> T)
  /\ (forall fuel,
        get Example.constructor fuel (LRef (Const Example.Dep)) Example.start = None)
  /\ fst <$> get Example.constructor 1 Example.Dep Example.start
     = Some (Ok (VShared (Some 0))).
Proof.
  split; [|split; [|split; [|split]]].
  - intros T. unfold enabled. simpl. apply andb_false_r.
  - done.
  - apply remove_reference_not_stripped.
  - intros fuel. apply get_const_reference_none.
  - reflexivity.
Qed.

(** ** The properties on the test program *)

Section Scenarios.

Import Example Bindings.

Lemma counting_factory_allocates : allocates counting_factory.
Proof. intros w. simpl. split; [done|]. rewrite length_app. simpl. lia. Qed.




(** [CreatingDerivedObjectWithSingletonFunctionFactory]: three equal
    handles, [call_count] is 1. *)
Lemma singleton_retrievals_witness :
  (fun o => (o.1, user (world o.2))) <$> repeat_call 3 (get constructor 1 Base) singleton_bound
  = Some (replicate 3 (Ok (VShared (Some 0))), 1).
Proof.
  destruct (singleton_retrievals constructor 0 Base singleton_bound [] 0
              (CastingComponentProvider Base Derived
                 (SingletonInstanceStorage (FunctionFactory Derived counting_factory) None))
              (FunctionFactory Derived counting_factory) 2
              eq_refl eq_refl eq_refl)
    as (_ & Hfn & _).
  destruct (Hfn Derived counting_factory eq_refl) as (s2 & Hw & _ & Hget).
  rewrite (Hget eq_refl eq_refl eq_refl). simpl. rewrite Hw. reflexivity.
Defined.

(** C3 as stated fails.  After
    [injector.add<Dep, Dep>(counting_null)] and
    [injector.add_singleton<Base, Client>()], where the constructor of
    [Client] takes a [std::shared_ptr<Dep>], three retrievals of
    [Base] construct a [Client] three times: each construction ends
    with the exception of the nested retrieval, nothing is stored, and
    [call_count] is 3. *)
Lemma singleton_retrievals_rebuilt :
  client constructor is_base_of
    [CallRegister (AddDerivedFn Dep Dep counting_null);
     CallRegister (AddSingletonDerived Base Client)]
    3 3 Base (mkWorld [] 0)
  = Some (replicate 3 (Throw ComponentCreationException), mkWorld [] 3).
Proof. reflexivity. Qed.

(** [CreatingDerivedObjectFromFunctionFactory]: three distinct
    handles, [call_count] is 3; and three retrievals after
    [add<Base, Derived>()]. *)
Lemma transient_retrievals_witness :
  (fun o => (o.1, user (world o.2))) <$> repeat_call 3 (get constructor 1 Base) transient_bound
  = Some ([Ok (VShared (Some 0)); Ok (VShared (Some 1)); Ok (VShared (Some 2))], 3)
  /\ NoDup (invoke_times 3 counting_factory (world transient_bound)).1
  /\ fst <$> repeat_call 3 (get constructor 1 Base) default_bound
     = Some [Ok (VShared (Some 0)); Ok (VShared (Some 1)); Ok (VShared (Some 2))].
Proof.
  destruct (transient_retrievals constructor 0 Base transient_bound [] 0
              (CastingComponentProvider Base Derived
                 (InstanceStorage (FunctionFactory Derived counting_factory)))
              (FunctionFactory Derived counting_factory) 2
              eq_refl eq_refl eq_refl) as (_ & _ & H & _).
  destruct (H Derived counting_factory eq_refl) as (_ & Hget & Hnd).
  destruct (transient_retrievals constructor 0 Base default_bound [] 0
              (CastingComponentProvider Base Derived
                 (InstanceStorage (ConstructorFactory Derived)))
              (ConstructorFactory Derived) 2
              eq_refl eq_refl eq_refl) as (_ & _ & _ & H').
  destruct (H' Derived eq_refl eq_refl) as (_ & Hget' & _).
  split; [|split].
  - rewrite (Hget eq_refl eq_refl eq_refl). reflexivity.
  - apply Hnd, counting_factory_allocates.
  - rewrite (Hget' eq_refl eq_refl eq_refl). reflexivity.
Defined.

(** C4 as stated fails: after [add<Base, Derived>(data)], the
    transient binding to an object, two retrievals yield the same
    instance. *)
Lemma constant_same_instance :
  client constructor is_base_of
    [CallRegister (AddDerivedData Base Derived (Some 0))]
    1 2 Base (mkWorld [mkObject Derived []] 0)
  = Some ([Ok (VShared (Some 0)); Ok (VShared (Some 0))],
          mkWorld [mkObject Derived []] 0).
Proof. reflexivity. Qed.

(** So does a transient binding to a callable that hands out the
    handle it captured, [add<Base, Derived>(fn)]. *)
Lemma transient_same_instance :
  client constructor is_base_of
    [CallRegister (AddDerivedFn Base Derived (same_factory (Some 0)))]
    1 2 Base (mkWorld [mkObject Derived []] 0)
  = Some ([Ok (VShared (Some 0)); Ok (VShared (Some 0))],
          mkWorld [mkObject Derived []] 0).
Proof. reflexivity. Qed.

(** Two providers for [Base]: both answer, in registration order, and
    the null handle of the first is kept. *)
Lemma collection_retrieval_witness :
  fst <$> get constructor 1 (Vector Base) twice_bound
  = Some (Ok (VVector [None; Some 0])).
Proof.
  destruct (collection_retrieval constructor 0 Base twice_bound eq_refl)
    as (_ & H & _).
  rewrite (H [0; 1] [null_factory; counting_factory] eq_refl).
  - reflexivity.
  - repeat constructor.
    + by exists (CastingComponentProvider Base Derived
                   (InstanceStorage (FunctionFactory Derived null_factory))), Derived.
    + by exists (CastingComponentProvider Base Derived
                   (InstanceStorage (FunctionFactory Derived counting_factory))), Derived.
Defined.


(** [contains] before and after [add<Base, Derived>(fn)], and for a
    type the program has not bound. *)
Lemma contains_registered_witness :
  fst <$> contains Base start = Some (Ok false)
  /\ contains Base null_bound = Some (Ok true, null_bound)
  /\ fst <$> contains Derived null_bound = Some (Ok false).
Proof.
  destruct (contains_registered constructor is_base_of Base start) as (_ & Hnot & Hreg).
  destruct (contains_registered constructor is_base_of Derived start) as (_ & Hnot' & _).
  split; [|split].
  - by rewrite (Hnot (mkWorld [] 0) [] start eq_refl) by (by intros c ?%not_elem_of_nil).
  - apply (Hreg (AddDerivedFn Base Derived null_factory) null_bound eq_refl). by left.
  - rewrite (Hnot' (mkWorld [] 0)
               [CallRegister (AddDerivedFn Base Derived null_factory)] null_bound eq_refl);
      [done|].
    by intros c ->%list_elem_of_singleton.
Defined.

(** [Base] is bound: [try_add<Base, Derived>(fn)] changes nothing, and
    [try_add<Base>()] has no outcome. *)
Lemma try_register_present_witness :
  try_register is_base_of (AddDerivedFn Base Derived counting_factory) null_bound
  = Some (Ok tt, null_bound)
  /\ try_register is_base_of (Add Base) null_bound = None.
Proof.
  destruct (try_register_present is_base_of
              (AddDerivedFn Base Derived counting_factory) null_bound)
    as (Hadd & _ & _ & H).
  split; [|apply Hadd]. by apply (H 0 [0]).
Defined.

(** After [get<Client>()] without a registration, [contains<Client>()]
    is still false. *)
Lemma fallback_leaves_registry_witness :
  match get constructor 3 Client start with
  | Some (res, s') =>
      res = Ok (VShared (Some 1))
      /\ m_Registrations s' = m_Registrations start
      /\ contains Client s' = Some (Ok false, s')
  | None => False
  end.
Proof.
  destruct (get constructor 3 Client start) as [[res s']|] eqn:H.
  - destruct (fallback_leaves_registry constructor 3 Client start res s'
                eq_refl eq_refl eq_refl H) as (H1 & _ & H3).
    split; [|done]. vm_compute in H. by injection H as <- _.
  - vm_compute in H. discriminate H.
Defined.

End Scenarios.

(** * Further properties of the registry *)

(** ** Type identity across a program *)

Section TypeIdentity.

Context {U : Type}.
Variable constructor : CppType -> option (list CppType).
Variable is_base_of : CppType -> CppType -> bool.
Implicit Types (s : State U) (T : CppType) (r : Registration U).

Lemma dense_type_id T s : dense s -> dense (type_id T s).2.
Proof.
  intros Hd. unfold type_id. destruct (static_id s T) eqn:E; simpl; [done|].
  intros i Hi. simpl in *.
  destruct (decide (i = s_LastIndex s)) as [->|Hne].
  - exists T. by rewrite decide_True.
  - destruct (Hd i) as [X HX]; [lia|]. exists X.
    rewrite decide_False; [done|congruence].
Qed.

Lemma get_dense fuel T :
  preserves (fun s s' : State U => dense s -> dense s') (get constructor fuel T).
Proof.
  apply preserves_get; try done.
  - eauto.
  - intros X s. apply dense_type_id.
Qed.

(** What every call keeps: the ids already assigned, and the density
    of the assignment. *)
Lemma call_type_ids c s s1 :
  call constructor is_base_of c s = Some s1 ->
  (forall T id, static_id s T = Some id -> static_id s1 T = Some id)
  /\ (dense s -> dense s1).
Proof.
  assert (forall r s0 res s2,
             register is_base_of r s0 = Some (res, s2) ->
             (forall T id, static_id s0 T = Some id -> static_id s2 T = Some id)
             /\ (dense s0 -> dense s2)) as Hreg.
  { intros r s0 res s2. rewrite register_unfold.
    destruct (well_typed is_base_of r); [|done].
    pose proof (frame_type_id (target r) s0) as Hfr.
    pose proof (dense_type_id (target r) s0) as Hd.
    destruct (type_id (target r) s0) as [id s3]. simpl in *.
    intros [= _ <-]. split; [apply Hfr|]. intros H. by apply Hd. }
  intros Hc. destruct c as [r|r|fuel X|X]; simpl in Hc; unfold after in Hc.
  - destruct (register is_base_of r s) as [[res s2]|] eqn:Hr; [|done].
    injection Hc as <-. by eapply Hreg.
  - destruct (try_register is_base_of r s) as [[res s2]|] eqn:Hr; [|done].
    injection Hc as <-. rewrite try_register_unfold in Hr.
    destruct (try_well_typed is_base_of r); [|done].
    pose proof (frame_type_id (target r) s) as Hfr.
    pose proof (dense_type_id (target r) s) as Hd.
    destruct (bool_decide _).
    + injection Hr as _ <-. split; [apply Hfr|done].
    + destruct (Hreg _ _ _ _ Hr) as [H1 H2]. split; [|by auto].
      intros T id HT. by apply H1, Hfr.
  - destruct (get constructor fuel X s) as [[res s2]|] eqn:Hg; [|done].
    injection Hc as <-. split.
    + apply (frame_static_id _ _ (get_frame constructor fuel X s _ _ Hg)).
    + apply (get_dense fuel X s _ _ Hg).
  - rewrite contains_unfold in Hc. injection Hc as <-. split.
    + apply (frame_static_id _ _ (frame_type_id X s)).
    + apply dense_type_id.
Qed.

Lemma run_type_ids cs s s' :
  run constructor is_base_of cs s = Some s' ->
  (forall T id, static_id s T = Some id -> static_id s' T = Some id)
  /\ (dense s -> dense s').
Proof.
  revert s. induction cs as [|c cs IH]; intros s; simpl.
  - by intros [= <-].
  - destruct (call constructor is_base_of c s) as [s1|] eqn:Hc; [|done].
    intros Hrun. destruct (call_type_ids c s s1 Hc) as [H1 H2].
    destruct (IH s1 Hrun) as [H3 H4]. split; auto.
Qed.

(** X1.  Through any program of registrations, retrievals and
    [contains] calls, a type keeps the id its first [type_id<T>()]
    returned; two types have the same id only if they are the same
    type; and the ids in use are exactly the values below the counter,
    so the types are numbered 0, 1, 2, ... in the order of their first
    use. *)
Theorem type_ids_of_program cs s s' :
  well_formed s -> dense s ->
  run constructor is_base_of cs s = Some s' ->
  (forall T id, static_id s T = Some id -> type_id T s' = (id, s'))
  /\ (forall T1 T2,
        (type_id T1 s').1 = (type_id T2 (type_id T1 s').2).1 -> T1 = T2)
  /\ (forall i, i < s_LastIndex s' <-> exists T, static_id s' T = Some i)
  /\ (forall T, static_id s' T = None ->
                (type_id T s').1 = s_LastIndex s'
                /\ s_LastIndex (type_id T s').2 = S (s_LastIndex s')).
Proof.
  intros Hwf Hd Hrun.
  destruct (run_type_ids cs s s' Hrun) as [Hkeep Hdense].
  pose proof (run_well_formed constructor is_base_of cs s s' Hwf Hrun) as Hwf'.
  split; [|split; [|split]].
  - intros T id HT. by apply type_id_known, Hkeep.
  - intros T1 T2. by apply type_id_inj.
  - intros i. split; [by apply Hdense|].
    intros [T HT]. by apply (wf_id_bound s' Hwf' T).
  - intros T HT. unfold type_id. by rewrite HT.
Qed.

End TypeIdentity.

(** ** The overload set of [get] *)

(** X2.  The [enable_if] conditions of the five [get] overloads
    exclude one another and leave no type out: every instantiation
    [get<T>] selects exactly one overload.  It is one of the two
    vector overloads exactly for a [std::vector], the shared-handle
    overload exactly for a [std::shared_ptr], the first overload
    otherwise, and never the one written for [const T&]. *)
Theorem get_overload_selection T :
  exists o,
    viable T = [o]
    /\ (forall o', enabled o' T = true <-> o' = o)
    /\ o <> GetConstReference
    /\ (is_vector T = true <-> o = GetVector \/ o = GetVectorShared)
    /\ (is_shared T = true <-> o = GetShared)
    /\ (o = GetVectorShared <-> exists E, T = Vector (SharedPtr E)).
Proof.
  assert (forall V o', enabled o' (Vector V) = true <->
                       o' = if is_shared V then GetVectorShared else GetVector) as Hvec.
  { intros V o'. destruct V, o'; simpl; split; by intros. }
  destruct T as [n|E|V|X|X|X|X|X].
  3: { exists (if is_shared V then GetVectorShared else GetVector).
       rewrite viable_cases. split; [by destruct (is_shared V)|].
       split; [apply Hvec|]. destruct V; simpl; repeat split; try done;
         try (by intros [? ?]); try (by intros [?|?]); eauto. }
  2: { exists GetShared. repeat split; try done; try (by intros [? ?]);
         try (by intros [?|?]); try (by destruct o'); by intros ->. }
  all: exists GetPlain; repeat split; try done; try (by intros [? ?]);
    try (by intros [?|?]); try (by destruct o'); by intros ->.
Qed.

Section ResultShape.

Context {U : Type}.
Variable constructor : CppType -> option (list CppType).
Implicit Types (s : State U) (T : CppType).

Lemma get_plain_not_null (get_rec : CppType -> M U Value) T s p s' :
  get_plain constructor get_rec T s = Some (Ok p, s') -> exists a, p = Some a.
Proof.
  unfold get_plain. destruct (is_reference T); [done|]. intros H.
  apply bind_inv in H as [(q & s1 & _ & H)|(e & _ & H)]; [|done].
  destruct q as [a|]; simpl in H; [|done]. injection H as <- _. eauto.
Qed.

Lemma get_plain_shape (get_rec : CppType -> M U Value) T s v s' :
  (value <- get_plain constructor get_rec T ;; ret (VShared value)) s = Some (Ok v, s') ->
  exists a, v = VShared (Some a).
Proof.
  intros H. apply bind_inv in H as [(p & s1 & H & H')|(e & _ & H')]; [|done].
  injection H' as <- _. destruct (get_plain_not_null _ _ _ _ _ H) as [a ->]. eauto.
Qed.

Lemma get_shape fuel T s v s' :
  get constructor fuel T s = Some (Ok v, s') ->
  if is_vector T then exists ps, v = VVector ps
  else exists a, v = VShared (Some a).
Proof.
  revert T s v s'. induction fuel as [|n IH]; intros T s v s'; [done|].
  simpl. unfold get_with, delegate. rewrite viable_cases.
  destruct T as [c|E|V|X|X|X|X|X]; simpl.
  3: { destruct (is_shared V) eqn:HV.
       - destruct V as [|E| | | | | |]; try done. simpl.
         destruct (returns _ _); [|done]. intros H. apply (IH _ _ _ _ H).
       - intros H. apply bind_inv in H as [(ps & s1 & _ & H)|(e & _ & H)]; [|done].
         injection H as <- _. eauto. }
  2: { destruct (returns E (SharedPtr E)) eqn:Hr; [|done].
       intros H. pose proof (IH _ _ _ _ H) as Hsh.
       unfold returns, get_type in Hr. apply bool_decide_eq_true in Hr.
       rewrite viable_cases in Hr.
       destruct E as [| |V| | | | |]; simpl in *; try done.
       by destruct (is_shared V). }
  all: apply get_plain_shape.
Qed.

(** X3.  What a returning [get<T>()] hands back has the shape of its
    overload: a vector of handles for a vector type, and otherwise one
    handle, which is never null, also when the call went through the
    shared-handle overload.  Only the elements of a vector can be null
    handles. *)
Theorem get_result_shape fuel T s v s' :
  get constructor fuel T s = Some (Ok v, s') ->
  (is_vector T = true -> exists ps, v = VVector ps)
  /\ (is_vector T = false -> exists a, v = VShared (Some a)).
Proof.
  intros H. pose proof (get_shape fuel T s v s' H) as Hsh.
  destruct (is_vector T); split; intros; done.
Qed.

Lemma for_each_Forall2 {A B} (Q : A -> B -> Prop) (f : A -> M U B) l s bs s' :
  (forall a s1 b s2, f a s1 = Some (Ok b, s2) -> Q a b) ->
  for_each f l s = Some (Ok bs, s') -> Forall2 Q l bs.
Proof.
  intros HQ. revert s bs s'. induction l as [|a l IH]; intros s bs s'; simpl.
  - intros [= <- _]. constructor.
  - intros H. apply bind_inv in H as [(b & s1 & Hb & H)|(e & _ & H)]; [|done].
    apply bind_inv in H as [(bs' & s2 & Hbs & H)|(e & _ & H)]; [|done].
    injection H as <- _. constructor; eauto.
Qed.

(** X14.  The argument resolver asks the checked [get], so default
    construction never injects an empty handle: when the construction
    of a [T] returns, the new object holds one argument per
    constructor parameter, each parameter is one the resolver accepts
    (not [T] itself, not an lvalue reference, not a pointer), and each
    argument is a non-null handle, or a vector for a vector
    parameter. *)
Theorem injected_arguments_not_null fuel T s p s' :
  factory_build constructor (get constructor fuel) (ConstructorFactory T) s
  = Some (Ok p, s') ->
  exists a params args,
    p = Some a
    /\ constructor T = Some params
    /\ heap (world s') !! a = Some (mkObject T args)
    /\ Forall2 (fun X v =>
                  injectable T X = true
                  /\ if is_vector X then exists ps, v = VVector ps
                     else exists b, v = VShared (Some b)) params args.
Proof.
  simpl. destruct (constructor T) as [params|]; [|done]. intros H.
  apply bind_inv in H as [(args & s1 & Hargs & H)|(e & _ & H)]; [|done].
  rewrite lift_world_unfold in H. injection H as <- <-.
  exists (length (heap (world s1))), params, args.
  split; [done|]. split; [done|]. split.
  - simpl. by rewrite lookup_app_r, Nat.sub_diag by lia.
  - eapply for_each_Forall2; [|exact Hargs].
    intros X sa v sb. unfold resolve_argument.
    destruct (injectable T X) eqn:Hi; simpl; [|done].
    destruct (returns X X); [|done]. intros Hg. split; [done|].
    apply (get_shape fuel X sa v sb Hg).
Qed.

(** X4.  [get<std::shared_ptr<T>>()] has exactly the outcomes of
    [get<T>()] for a class type [T]: the same result or exception and
    the same state, one stack frame deeper. *)
Theorem get_shared_same_outcome T s o :
  is_vector T = false -> is_shared T = false ->
  (exists fuel, get constructor fuel (SharedPtr T) s = Some o)
  <-> (exists fuel, get constructor fuel T s = Some o).
Proof.
  intros Hv Hs. split.
  - intros [[|n] H]; [done|]. exists n. by rewrite <- (get_shared_delegates constructor n T s).
  - intros [n H]. exists (S n). by rewrite get_shared_delegates.
Qed.

(** X5.  [get<std::vector<std::shared_ptr<T>>>()] has exactly the
    outcomes of [get<std::vector<T>>()], one stack frame deeper. *)
Theorem get_vector_shared_same_outcome T s o :
  is_shared T = false ->
  (exists fuel, get constructor fuel (Vector (SharedPtr T)) s = Some o)
  <-> (exists fuel, get constructor fuel (Vector T) s = Some o).
Proof.
  intros Hs. split.
  - intros [[|n] H]; [done|]. exists n.
    by rewrite <- (get_vector_shared_delegates constructor n T s).
  - intros [n H]. exists (S n). by rewrite get_vector_shared_delegates.
Qed.

End ResultShape.

(** ** Retrievals and registrations side by side *)

Section SideEffects.

Context {U : Type}.
Variable constructor : CppType -> option (list CppType).
Variable is_base_of : CppType -> CppType -> bool.
Implicit Types (s : State U) (T : CppType) (r : Registration U).

Lemma contains_unregistered T s :
  well_formed s ->
  contains T s = Some (Ok (negb (unregistered s T)), (type_id T s).2).
Proof.
  intros Hwf. rewrite contains_unfold. do 3 f_equal.
  destruct (unregistered s T) eqn:Hun.
  - rewrite (unregistered_lookup T s Hwf Hun).
    by apply bool_decide_eq_false_2; intros [? ?].
  - unfold unregistered in Hun. destruct (static_id s T) as [id|] eqn:E; [|done].
    rewrite (type_id_known T s id E). simpl.
    apply bool_decide_eq_false in Hun. apply bool_decide_eq_true_2.
    by destruct (m_Registrations s !! id); [eexists|].
Qed.

Lemma registered_frame T s s' :
  frame s s' -> unregistered s T = false -> unregistered s' T = false.
Proof.
  intros Hfr. unfold unregistered.
  destruct (static_id s T) as [id|] eqn:E; [|done].
  rewrite (frame_static_id _ _ Hfr _ _ E), (frame_registrations _ _ Hfr). done.
Qed.

(** X6.  No retrieval, of any form and with any outcome, binds or
    unbinds a type: the binding table is the same after it, every
    provider is at its place with the factory and lifetime policy it
    was registered with, and [contains<X>()] answers for every type
    [X] what it answered before. *)
Theorem get_keeps_bindings fuel T s res s' :
  well_formed s ->
  get constructor fuel T s = Some (res, s') ->
  m_Registrations s' = m_Registrations s
  /\ binding_of <$> provider_objects s' = binding_of <$> provider_objects s
  /\ forall X, fst <$> contains X s' = fst <$> contains X s.
Proof.
  intros Hwf Hget.
  pose proof (get_frame constructor fuel T s _ _ Hget) as Hfr.
  pose proof (get_well_formed constructor fuel T s _ _ Hget Hwf) as Hwf'.
  do 2 (split; [apply Hfr|]). intros X.
  rewrite !contains_unregistered by done. simpl. do 3 f_equal.
  destruct (unregistered s X) eqn:Hun.
  - by apply (unregistered_frame X s s').
  - by apply (registered_frame X s s').
Qed.

(** X7.  A registration appends one provider to the list of its
    target and does nothing else: the lists of all other types are
    the same, the providers registered before keep their place and
    their cache, and the world is untouched, so neither the new
    producer nor a constructor runs at registration time; the first
    retrieval invokes them. *)
Theorem register_only_appends r s s1 :
  well_formed s ->
  register is_base_of r s = Some (Ok tt, s1) ->
  m_Registrations s1 !! (type_id (target r) s1).1
  = Some (default [] (m_Registrations s !! (type_id (target r) s).1)
          ++ [length (provider_objects s)])
  /\ provider_objects s1 = provider_objects s ++ [new_provider r]
  /\ world s1 = world s
  /\ forall X, X <> target r ->
               m_Registrations s1 !! (type_id X s1).1
               = m_Registrations s !! (type_id X s).1.
Proof.
  intros Hwf Hreg.
  pose proof (well_formed_register is_base_of r s _ s1 Hwf Hreg) as Hwf1.
  destruct (register_appends is_base_of r s s1 Hreg) as (Hm & Hp & Hw).
  assert (static_id s1 = static_id (type_id (target r) s).2) as Hids.
  { rewrite register_unfold in Hreg. destruct (well_typed is_base_of r); [|done].
    by injection Hreg as <-. }
  assert (s_LastIndex s1 = s_LastIndex (type_id (target r) s).2) as Hlast.
  { rewrite register_unfold in Hreg. destruct (well_typed is_base_of r); [|done].
    by injection Hreg as <-. }
  pose proof (type_id_assigned (target r) s) as Hid.
  pose proof (well_formed_type_id (target r) s Hwf) as Hwf0.
  set (id := (type_id (target r) s).1) in *. set (s0 := (type_id (target r) s).2) in *.
  split; [|split; [done|split; [done|]]].
  - rewrite (type_id_known (target r) s1 id) by (by rewrite Hids).
    simpl. by rewrite Hm, lookup_insert_eq.
  - intros X Hne. rewrite Hm.
    destruct (static_id s X) as [k|] eqn:EX.
    + pose proof (frame_static_id _ _ (frame_type_id (target r) s) _ _ EX) as EX0.
      fold s0 in EX0.
      rewrite (type_id_known X s k EX), (type_id_known X s1 k) by (by rewrite Hids).
      simpl. rewrite lookup_insert_ne; [done|].
      intros <-. apply Hne. by apply (wf_id_inj s0 Hwf0 X (target r) id).
    + rewrite (type_id_fresh X s Hwf EX).
      destruct (static_id s1 X) as [k|] eqn:EX1.
      * rewrite (type_id_known X s1 k EX1). simpl.
        rewrite Hids in EX1.
        rewrite lookup_insert_ne.
        -- destruct (m_Registrations s !! k) as [hs|] eqn:Hk; [|done].
           destruct (wf_key_assigned s Hwf _ _ Hk) as [Y HY].
           pose proof (frame_static_id _ _ (frame_type_id (target r) s) _ _ HY) as HY0.
           fold s0 in HY0.
           assert (Y = X) as -> by (by apply (wf_id_inj s0 Hwf0 Y X k)).
           congruence.
        -- intros <-. apply Hne. by apply (wf_id_inj s0 Hwf0 X (target r) id).
      * assert ((type_id X s1).1 = s_LastIndex s1) as ->.
        { unfold type_id. by rewrite EX1. }
        rewrite lookup_insert_ne.
        -- destruct (m_Registrations s !! s_LastIndex s1) as [hs|] eqn:Hk; [|done].
           destruct (wf_key_assigned s Hwf _ _ Hk) as [Y HY].
           pose proof (frame_static_id _ _ (frame_type_id (target r) s) _ _ HY) as HY0.
           fold s0 in HY0. apply (wf_id_bound s0 Hwf0) in HY0. lia.
        -- intros Heq. apply (wf_id_bound s0 Hwf0) in Hid. lia.
Qed.

(** X8.  On a type whose identity has no entry, each of the six "only
    if absent" registrations that can be instantiated is the
    unconditional one: it registers, with the same outcome and the
    same state.  [try_add_singleton<T>(fn)] is not: it has no outcome,
    while [add_singleton<T>(fn)], called with a closure, registers. *)
Theorem try_register_absent r s :
  m_Registrations s !! (type_id (target r) s).1 = None ->
  (try_well_typed is_base_of r = true ->
   try_register is_base_of r s = register is_base_of r s
   /\ exists s1, register is_base_of r s = Some (Ok tt, s1))
  /\ (forall T fn,
        r = AddSingletonFn T fn ->
        try_register is_base_of r s = None
        /\ exists s1, register is_base_of r s = Some (Ok tt, s1)).
Proof.
  intros Hk. split.
  - intros Hty. rewrite try_register_unfold, !register_unfold, Hk, Hty.
    rewrite (try_well_typed_well_typed is_base_of r Hty).
    rewrite bool_decide_eq_false_2 by (by intros [? ?]).
    rewrite type_id_stable. split; [done|]. by eexists.
  - intros T fn ->. split; [done|]. rewrite register_unfold. by eexists.
Qed.

Lemma try_register_bound r s s1 :
  try_register is_base_of r s = Some (Ok tt, s1) ->
  exists id hs, static_id s1 (target r) = Some id /\ m_Registrations s1 !! id = Some hs.
Proof.
  rewrite try_register_unfold. destruct (try_well_typed is_base_of r); [|done].
  pose proof (type_id_assigned (target r) s) as Hid.
  pose proof (type_id_registrations (target r) s) as Hm.
  destruct (bool_decide _) eqn:Hb.
  - intros [= <-]. apply bool_decide_eq_true in Hb as [hs Hk].
    exists (type_id (target r) s).1, hs. by rewrite Hm.
  - rewrite register_unfold. destruct (well_typed is_base_of r); [|done].
    rewrite type_id_stable. intros [= <-]. simpl.
    eexists _, _. split; [exact Hid|]. apply lookup_insert_eq.
Qed.

(** X9.  Of two "only if absent" registrations for the same type the
    first wins: once one has returned, a second one that can be
    instantiated, whatever its producer and lifetime policy, returns
    the state unchanged. *)
Theorem try_register_first_wins r1 r2 s s1 :
  target r2 = target r1 ->
  try_well_typed is_base_of r2 = true ->
  try_register is_base_of r1 s = Some (Ok tt, s1) ->
  try_register is_base_of r2 s1 = Some (Ok tt, s1).
Proof.
  intros Ht Hty H1.
  destruct (try_register_bound r1 s s1 H1) as (id & hs & Hid & Hk).
  rewrite try_register_unfold, Hty, Ht.
  rewrite (type_id_known (target r1) s1 id Hid). simpl.
  by rewrite Hk, bool_decide_eq_true_2.
Qed.

End SideEffects.

(** ** More on the retrieval forms *)

Section RetrievalForms.

Context {U : Type}.
Variable constructor : CppType -> option (list CppType).
Implicit Types (s : State U) (T : CppType).

Lemma get_vector_outcome fuel T s :
  is_shared T = false ->
  get constructor (S fuel) (Vector T) s
  = match get_vector constructor (get constructor fuel) T s with
    | Some (Ok ps, s') => Some (Ok (VVector ps), s')
    | Some (Throw e, s') => Some (Throw e, s')
    | None => None
    end.
Proof.
  intros Hs. simpl. unfold get_with. rewrite viable_cases, Hs. simpl. unfold bind.
  by destruct (get_vector _ _ T s) as [[[ps|e] s']|].
Qed.

Lemma for_each_length {A B} (f : A -> M U B) l s bs s' :
  for_each f l s = Some (Ok bs, s') -> length bs = length l.
Proof.
  revert s bs s'. induction l as [|a l IH]; intros s bs s'; simpl.
  - by intros [= <- _].
  - intros H. apply bind_inv in H as [(b & s1 & _ & H)|(e & _ & H)]; [|done].
    apply bind_inv in H as [(bs' & s2 & Hbs & H)|(e & _ & H)]; [|done].
    injection H as <- _. simpl. f_equal. by eapply IH.
Qed.

(** X10.  A binding to a preconstructed object, [add<Base,
    Derived>(data)], hands out that object on every retrieval, as the
    comment on the overload says: any number of retrievals return the
    handle [data], or fail each time when [data] is empty, and they
    change nothing: the state after them is the state the first
    lookup left. *)
Theorem constant_retrievals fuel T s hs h p D data N :
  m_Registrations s !! (type_id T s).1 = Some (hs ++ [h]) ->
  provider_objects s !! h = Some p ->
  provider_storage p = InstanceStorage (ConstantFactory D data) ->
  is_vector T = false -> is_shared T = false -> is_reference T = false ->
  repeat_call (S N) (get constructor (S fuel) T) s
  = Some (replicate (S N) (checked data), (type_id T s).2)
  /\ world (type_id T s).2 = world s
  /\ provider_objects (type_id T s).2 = provider_objects s.
Proof.
  intros Hreg Hp Hst Hv Hs Hr.
  pose proof (type_id_assigned T s) as Hid.
  pose proof (type_id_registrations T s) as Hm0.
  pose proof (type_id_provider_objects T s) as Hp0.
  split; [|split; [apply type_id_world|done]].
  set (s0 := (type_id T s).2) in *. set (id := (type_id T s).1) in *.
  assert (get constructor (S fuel) T s = Some (checked data, s0)) as H1.
  { rewrite (get_plain_outcome constructor fuel T s Hv Hs Hr), get_unchecked_unfold.
    fold id s0. rewrite Hreg, last_snoc.
    erewrite provider_get_unfold by (by rewrite Hp0). by rewrite Hst. }
  assert (get constructor (S fuel) T s0 = Some (checked data, s0)) as H2.
  { rewrite (get_plain_outcome constructor fuel T s0 Hv Hs Hr), get_unchecked_unfold.
    rewrite (type_id_known T s0 id Hid). simpl. rewrite Hm0, Hreg, last_snoc.
    erewrite provider_get_unfold by (by rewrite Hp0). by rewrite Hst. }
  cbn [repeat_call]. by rewrite H1, (repeat_call_fixed _ _ _ N H2).
Qed.

(** X11.  A returning collection retrieval has one element for each
    provider registered for the type, no more and no fewer: none
    without a registration, and null results are not dropped. *)
Theorem collection_length fuel T s ps s' :
  is_shared T = false ->
  get constructor fuel (Vector T) s = Some (Ok (VVector ps), s') ->
  length ps = length (default [] (m_Registrations s !! (type_id T s).1)).
Proof.
  intros Hs. destruct fuel as [|fuel]; [done|].
  rewrite (get_vector_outcome fuel T s Hs), get_vector_unfold.
  destruct (m_Registrations s !! (type_id T s).1) as [hs|]; simpl.
  - destruct (for_each _ hs _) as [[[qs|e] s1]|] eqn:Hfe; intros H; simplify_eq.
    by eapply for_each_length.
  - by intros [= <- _].
Qed.

(** X12.  Retrieval has no cycle detection.  When the first
    constructor parameter of every type of a set is a shared handle of
    a type of the same set (a type that depends on itself, or types
    that depend on one another in a circle) and none of them is
    registered, [get] of any of them has no outcome however deep the
    stack: the recursion between [get_unchecked] and the argument
    resolver never ends. *)
Theorem dependency_cycle_no_outcome (C : CppType -> Prop) fuel T s :
  (forall X, C X ->
             is_vector X = false /\ is_shared X = false
             /\ exists D rest, constructor X = Some (SharedPtr D :: rest) /\ C D) ->
  well_formed s ->
  (forall X, C X -> unregistered s X = true) ->
  C T ->
  get constructor fuel T s = None /\ get constructor fuel (SharedPtr T) s = None.
Proof.
  intros Hcycle. revert T s. induction fuel as [|n IH]; intros T s Hwf Hun HT; [done|].
  destruct (Hcycle T HT) as (Hv & Hs & D & rest & Hc & HD).
  split; [|rewrite (get_shared_delegates constructor n T s Hv Hs); by apply IH].
  destruct (is_reference T) eqn:Hr.
  { simpl. unfold get_with, get_plain. by rewrite (viable_plain T Hv Hs), Hr. }
  rewrite (get_plain_outcome constructor n T s Hv Hs Hr), get_unchecked_unfold.
  rewrite (unregistered_lookup T s Hwf (Hun T HT)). simpl. rewrite Hc. simpl.
  assert (resolve_argument (get constructor n) T (SharedPtr D) (type_id T s).2 = None)
    as Hres.
  { unfold resolve_argument. destruct (_ && _); [|done].
    apply IH; [by apply well_formed_type_id| |done].
    intros X HX. apply (unregistered_frame X s _ Hwf); auto.
    - by apply well_formed_type_id.
    - apply frame_type_id. }
  by rewrite (bind_none _ _ _ (bind_none _ _ _ Hres)).
Qed.

End RetrievalForms.

(** ** Singletons across the retrieval forms *)

Section SharedSingletons.

Context {U : Type}.
Variable constructor : CppType -> option (list CppType).
Variable is_base_of : CppType -> CppType -> bool.
Implicit Types (s : State U) (T : CppType).

Lemma Forall2_not_elem {A B} (P : A -> B -> Prop) (x : A) l k :
  x ∉ l -> Forall2 P l k -> Forall2 (fun a b => a <> x /\ P a b) l k.
Proof.
  intros Hx H. induction H as [|a b l k HP _ IH]; [constructor|].
  apply not_elem_of_cons in Hx as [Hne Hx]. constructor; auto.
Qed.

(** Every registration creates a provider object of its own, so the
    lists of a reachable state have no repeated handle. *)
Lemma call_handles_distinct c s s1 :
  well_formed s -> handles_distinct s ->
  call constructor is_base_of c s = Some s1 -> handles_distinct s1.
Proof.
  assert (forall r s0 res s2,
             well_formed s0 -> handles_distinct s0 ->
             register is_base_of r s0 = Some (res, s2) -> handles_distinct s2) as Hreg.
  { intros r s0 res s2 Hwf Hd Hr.
    assert (res = Ok tt) as ->.
    { rewrite register_unfold in Hr. destruct (well_typed is_base_of r); [|done].
      by injection Hr. }
    destruct (register_appends is_base_of r s0 s2 Hr) as (Hm & _ & _).
    intros id hs. rewrite Hm, lookup_insert. case_decide.
    - intros [= <-]. apply NoDup_app. split; [|split].
      + destruct (m_Registrations s0 !! _) as [hs|] eqn:Hk; simpl; [by eapply Hd|].
        constructor.
      + intros h Hin ->%list_elem_of_singleton.
        destruct (m_Registrations s0 !! _) as [hs|] eqn:Hk; simpl in Hin.
        * pose proof (wf_handles s0 Hwf _ _ _ Hk Hin). lia.
        * by apply not_elem_of_nil in Hin.
      + apply NoDup_singleton.
    - apply Hd. }
  intros Hwf Hd Hc. destruct c as [r|r|fuel X|X]; simpl in Hc; unfold after in Hc.
  - destruct (register is_base_of r s) as [[res s2]|] eqn:Hr; [|done].
    injection Hc as <-. by eapply Hreg.
  - destruct (try_register is_base_of r s) as [[res s2]|] eqn:Hr; [|done].
    injection Hc as <-. rewrite try_register_unfold in Hr.
    destruct (try_well_typed is_base_of r); [|done].
    assert (handles_distinct (type_id (target r) s).2) as Hd0.
    { intros id hs. rewrite type_id_registrations. apply Hd. }
    destruct (bool_decide _).
    + by injection Hr as _ <-.
    + eapply Hreg; [|exact Hd0|exact Hr]. by apply well_formed_type_id.
  - destruct (get constructor fuel X s) as [[res s2]|] eqn:Hg; [|done].
    injection Hc as <-. intros id hs.
    rewrite (frame_registrations _ _ (get_frame constructor fuel X s _ _ Hg)). apply Hd.
  - rewrite contains_unfold in Hc. injection Hc as <-. intros id hs.
    rewrite type_id_registrations. apply Hd.
Qed.

Lemma run_handles_distinct cs w s :
  run constructor is_base_of cs (initial_state w) = Some s -> handles_distinct s.
Proof.
  assert (forall s0, well_formed s0 -> handles_distinct s0 ->
                     run constructor is_base_of cs s0 = Some s -> handles_distinct s) as H.
  { induction cs as [|c cs IH]; intros s0 Hwf Hd; simpl.
    - by intros [= <-].
    - destruct (call constructor is_base_of c s0) as [s1|] eqn:Hc; [|done].
      apply IH; [by eapply call_well_formed|by eapply call_handles_distinct]. }
  apply H; [apply well_formed_initial|]. intros id hs. simpl. by rewrite lookup_empty.
Qed.

(** Singleton providers of callables, none asked yet, asked one after
    the other: each callable runs once and each result is cached. *)
Lemma for_each_fresh_singletons (get_rec : CppType -> M U Value) hs fns s0 :
  NoDup hs ->
  Forall2 (fresh_singleton s0) hs fns ->
  exists s1,
    for_each (provider_get constructor get_rec) hs s0
    = Some (Ok (invoke_each fns (world s0)).1, s1)
    /\ world s1 = (invoke_each fns (world s0)).2
    /\ static_id s1 = static_id s0
    /\ m_Registrations s1 = m_Registrations s0
    /\ Forall2 (cached_singleton s1) hs (invoke_each fns (world s0)).1
    /\ forall h, h ∉ hs -> provider_objects s1 !! h = provider_objects s0 !! h.
Proof.
  intros Hnd HF. revert s0 HF. revert fns.
  induction hs as [|h hs IH]; intros fns s0 HF.
  - apply Forall2_nil_inv_l in HF as ->. exists s0. simpl. repeat split; constructor.
  - apply Forall2_cons_inv_l in HF as (fn & fns' & (p & D & Hp & Hst) & HF & ->).
    apply NoDup_cons in Hnd as [Hnotin Hnd].
    destruct (fn (world s0)) as [v w1] eqn:Hfn.
    set (p' := with_storage p (SingletonInstanceStorage (FunctionFactory D fn) (Some v))).
    set (sb := set_provider_objects (<[h := p']> (provider_objects s0)) (set_world w1 s0)).
    assert (provider_get constructor get_rec h s0 = Some (Ok v, sb)) as Hget.
    { rewrite (provider_get_unfold _ _ _ _ _ Hp), Hst. simpl.
      rewrite (bind_ok _ _ _ _ _ (lift_world_unfold fn s0)), Hfn.
      unfold bind, store_instance. simpl. by rewrite Hp, Hst. }
    destruct (IH Hnd fns' sb) as (s1 & Hfe & Hw & Hids & Hm & Hc & Hother).
    { eapply Forall2_impl; [apply (Forall2_not_elem _ h _ _ Hnotin HF)|].
      intros h' fn' (Hne & q & D' & Hq & Hqs). exists q, D'. split; [|done].
      simpl. by rewrite list_lookup_insert_ne. }
    exists s1. cbn [for_each invoke_each].
    rewrite (bind_ok _ _ _ _ _ Hget), (bind_ok _ _ _ _ _ Hfe), Hfn.
    change (world sb) with w1 in *.
    destruct (invoke_each fns' w1) as [ps w2] eqn:Hie. simpl in Hw, Hc |- *.
    split; [done|]. split; [done|]. split; [done|]. split; [done|]. split.
    + constructor; [|done]. exists p', (FunctionFactory D fn). split.
      * rewrite (Hother h Hnotin). simpl. apply list_lookup_insert_eq.
        by eapply lookup_lt_Some.
      * unfold p'. by rewrite provider_storage_with_storage.
    + intros h' [Hne Hnotin']%not_elem_of_cons.
      rewrite (Hother h' Hnotin'). simpl. by rewrite list_lookup_insert_ne.
Qed.

Lemma for_each_cached (get_rec : CppType -> M U Value) hs ps s :
  Forall2 (cached_singleton s) hs ps ->
  for_each (provider_get constructor get_rec) hs s = Some (Ok ps, s).
Proof.
  induction 1 as [|h v hs ps (p & f & Hp & Hst) _ IH]; simpl; [done|].
  rewrite (bind_ok _ _ _ _ _ (provider_get_cached constructor get_rec h s p f v Hp Hst)).
  by rewrite (bind_ok _ _ _ _ _ IH).
Qed.

(** X13.  The retrieval forms share the instances of singleton
    bindings.  When the providers of [T] are singletons of callables
    that have not been asked yet, the first collection retrieval
    invokes each callable once, in registration order; after it, a
    second collection retrieval returns the same handles and
    [get<T>()] returns the last of them (or fails when that one is
    null), and neither invokes a callable or changes the state. *)
Theorem singletons_shared fuel T s hs fns :
  is_vector T = false -> is_shared T = false -> is_reference T = false ->
  m_Registrations s !! (type_id T s).1 = Some hs ->
  NoDup hs ->
  Forall2 (fresh_singleton s) hs fns ->
  exists s',
    get constructor (S fuel) (Vector T) s
    = Some (Ok (VVector (invoke_each fns (world s)).1), s')
    /\ world s' = (invoke_each fns (world s)).2
    /\ get constructor (S fuel) (Vector T) s'
       = Some (Ok (VVector (invoke_each fns (world s)).1), s')
    /\ forall v, last (invoke_each fns (world s)).1 = Some v ->
                 get constructor (S fuel) T s' = Some (checked v, s').
Proof.
  intros Hv Hs Hr Hreg Hnd HF.
  pose proof (type_id_assigned T s) as Hid.
  pose proof (type_id_registrations T s) as Hm0.
  pose proof (type_id_provider_objects T s) as Hp0.
  pose proof (type_id_world T s) as Hw0.
  set (s0 := (type_id T s).2) in *. set (id := (type_id T s).1) in *.
  destruct (for_each_fresh_singletons (get constructor fuel) hs fns s0 Hnd)
    as (s1 & Hfe & Hw & Hids & Hm & Hc & _).
  { eapply Forall2_impl; [exact HF|]. intros h fn (p & D & Hp & Hst).
    exists p, D. by rewrite Hp0. }
  rewrite Hw0 in Hfe, Hw, Hc.
  assert (type_id T s1 = (id, s1)) as Hid1.
  { apply type_id_known. by rewrite Hids. }
  exists s1. split; [|split; [done|split]].
  - rewrite (get_vector_outcome constructor fuel T s Hs), get_vector_unfold.
    fold id s0. by rewrite Hreg, Hfe.
  - rewrite (get_vector_outcome constructor fuel T s1 Hs), get_vector_unfold, Hid1.
    simpl. by rewrite Hm, Hm0, Hreg, (for_each_cached _ _ _ _ Hc).
  - intros v Hlast. apply last_Some in Hlast as [ps' Hps]. rewrite Hps in Hc.
    apply Forall2_app_inv_r in Hc as (hs1 & hs2 & _ & Hc2 & ->).
    apply Forall2_cons_inv_r in Hc2 as (h & hs3 & (p & f & Hp & Hst) & Hnil & ->).
    apply Forall2_nil_inv_r in Hnil as ->.
    rewrite (get_plain_outcome constructor fuel T s1 Hv Hs Hr), get_unchecked_unfold, Hid1.
    simpl. rewrite Hm, Hm0, Hreg, last_snoc.
    by rewrite (provider_get_cached constructor _ h s1 p f v Hp Hst).
Qed.

End SharedSingletons.

(** ** Retrieval without registration, repeated *)

Section ImplicitRepeated.

Context {U : Type}.
Variable constructor : CppType -> option (list CppType).
Implicit Types (s : State U) (T : CppType).

(** X15.  The fallback of [get_unchecked] keeps nothing: a class
    without registration and without constructor parameters is built
    anew on every retrieval.  [N + 1] retrievals return [N + 1]
    pairwise distinct new objects, at the next free addresses, and
    the registry still has no entry for the type. *)
Theorem implicit_retrievals_distinct fuel T s N :
  m_Registrations s !! (type_id T s).1 = None ->
  constructor T = Some [] ->
  is_vector T = false -> is_shared T = false -> is_reference T = false ->
  exists s',
    repeat_call (S N) (get constructor (S fuel) T) s
    = Some ((fun i => Ok (VShared (Some (length (heap (world s)) + i)))) <$> seq 0 (S N),
            s')
    /\ length (heap (world s')) = length (heap (world s)) + S N
    /\ m_Registrations s' !! (type_id T s').1 = None
    /\ NoDup ((fun i => Some (length (heap (world s)) + i)) <$> seq 0 (S N)).
Proof.
  intros Hun Hc Hv Hs Hr.
  pose proof (type_id_assigned T s) as Hid.
  pose proof (type_id_registrations T s) as Hm0.
  pose proof (type_id_world T s) as Hw0.
  set (s0 := (type_id T s).2) in *. set (id := (type_id T s).1) in *.
  set (fn := make_shared (U := U) T []).
  assert (forall w, get constructor (S fuel) T (set_world w s0)
                    = Some (checked (fn w).1, set_world (fn w).2 s0)) as Hstep.
  { intros w. rewrite (get_plain_outcome constructor fuel T _ Hv Hs Hr).
    rewrite get_unchecked_unfold, (type_id_known T (set_world w s0) id) by done.
    simpl. by rewrite Hm0, Hun, Hc. }
  assert (get constructor (S fuel) T s
          = Some (checked (fn (world s)).1, set_world (fn (world s)).2 s0)) as Hfirst.
  { rewrite (get_plain_outcome constructor fuel T _ Hv Hs Hr), get_unchecked_unfold.
    fold id s0. rewrite Hun. simpl. rewrite Hc. simpl.
    unfold bind, lift_world. simpl. by rewrite Hw0. }
  destruct (invoke_times_allocates fn (S N) (world s) (make_shared_allocates T []))
    as [Hps Hlen].
  eexists. split; [|split; [|split]].
  - rewrite (repeat_call_producer _ checked fn s s0 N Hstep Hfirst), Hps.
    by rewrite <- list_fmap_compose.
  - exact Hlen.
  - rewrite (type_id_known T _ id) by done. simpl. by rewrite Hm0.
  - apply NoDup_fmap_2; [|apply NoDup_seq]. intros i j [=]. lia.
Qed.

End ImplicitRepeated.

(** ** The further properties on the test program *)

Section MoreScenarios.

Import Example Bindings.

Lemma type_ids_of_program_witness :
  type_id Base after_get = (0, after_get)
  /\ (forall i, i < 3 <-> exists T, static_id after_get T = Some i)
  /\ (type_id Derived after_get).1 = 3.
Proof.
  assert (well_formed null_bound) as Hwf.
  { apply (run_well_formed constructor is_base_of
             [CallRegister (AddDerivedFn Base Derived null_factory)] start null_bound
             (well_formed_initial _) eq_refl). }
  assert (dense null_bound) as Hd.
  { apply (run_type_ids constructor is_base_of
             [CallRegister (AddDerivedFn Base Derived null_factory)] start null_bound eq_refl).
    intros i Hi. simpl in Hi. lia. }
  destruct (type_ids_of_program constructor is_base_of [CallGet 3 Client]
              null_bound after_get Hwf Hd eq_refl) as (H1 & _ & H3 & H4).
  split; [|split].
  - by apply H1.
  - apply H3.
  - by apply H4.
Defined.

Lemma get_result_shape_witness :
  match get constructor 2 (SharedPtr Base) transient_bound with
  | Some (Ok v, _) => exists a, v = VShared (Some a)
  | _ => False
  end
  /\ match get constructor 1 (Vector Base) null_bound with
     | Some (Ok v, _) => exists ps, v = VVector ps
     | _ => False
     end.
Proof.
  split.
  - destruct (get constructor 2 (SharedPtr Base) transient_bound)
      as [[[v|e] s']|] eqn:H.
    + by apply (get_result_shape constructor 2 (SharedPtr Base) transient_bound v s' H).
    + vm_compute in H. discriminate H.
    + vm_compute in H. discriminate H.
  - destruct (get constructor 1 (Vector Base) null_bound) as [[[v|e] s']|] eqn:H.
    + by apply (get_result_shape constructor 1 (Vector Base) null_bound v s' H).
    + vm_compute in H. discriminate H.
    + vm_compute in H. discriminate H.
Defined.

Lemma get_shared_same_outcome_witness :
  exists o,
    (exists fuel, get constructor fuel (SharedPtr Dep) start = Some o)
    /\ o.1 = Ok (VShared (Some 0)).
Proof.
  eexists. split.
  - apply (get_shared_same_outcome constructor Dep start _ eq_refl eq_refl).
    exists 1. reflexivity.
  - reflexivity.
Defined.

Lemma get_vector_shared_same_outcome_witness :
  exists o,
    (exists fuel, get constructor fuel (Vector (SharedPtr Base)) twice_bound = Some o)
    /\ o.1 = Ok (VVector [None; Some 0]).
Proof.
  eexists. split.
  - apply (get_vector_shared_same_outcome constructor Base twice_bound _ eq_refl).
    exists 1. reflexivity.
  - reflexivity.
Defined.

Lemma get_keeps_bindings_witness :
  m_Registrations after_get = m_Registrations null_bound
  /\ fst <$> contains Client after_get = Some (Ok false)
  /\ fst <$> contains Base after_get = Some (Ok true).
Proof.
  assert (well_formed null_bound) as Hwf.
  { apply (run_well_formed constructor is_base_of
             [CallRegister (AddDerivedFn Base Derived null_factory)] start null_bound
             (well_formed_initial _) eq_refl). }
  destruct (get constructor 3 Client null_bound) as [[res s']|] eqn:H.
  - destruct (get_keeps_bindings constructor 3 Client null_bound res s' Hwf H)
      as (H1 & _ & H3).
    assert (s' = after_get) as ->.
    { unfold after_get. cbn [run call]. unfold after. by rewrite H. }
    split; [done|]. by rewrite !H3.
  - vm_compute in H. discriminate H.
Defined.

Lemma register_only_appends_witness :
  m_Registrations twice_bound !! (type_id Base twice_bound).1 = Some ([0] ++ [1])
  /\ world twice_bound = world null_bound
  /\ m_Registrations twice_bound !! (type_id Dep twice_bound).1 = None.
Proof.
  assert (well_formed null_bound) as Hwf.
  { apply (run_well_formed constructor is_base_of
             [CallRegister (AddDerivedFn Base Derived null_factory)] start null_bound
             (well_formed_initial _) eq_refl). }
  destruct (register_only_appends is_base_of
              (AddDerivedFn Base Derived counting_factory) null_bound twice_bound
              Hwf eq_refl) as (H1 & _ & H3 & H4).
  split; [exact H1|]. split; [exact H3|]. by rewrite (H4 Dep).
Defined.

(** [try_add_singleton<Dep>()] and [add_singleton<Dep>()] on a
    registry that binds [Base] only; and [try_add<Dep, Dep>(fn)]. *)
Lemma try_register_absent_witness :
  try_register is_base_of (AddSingleton Dep) null_bound
  = register is_base_of (AddSingleton Dep) null_bound
  /\ try_register is_base_of (AddDerivedFn Dep Dep null_factory) null_bound
     = register is_base_of (AddDerivedFn Dep Dep null_factory) null_bound.
Proof.
  split.
  - by apply (try_register_absent is_base_of (AddSingleton Dep) null_bound).
  - by apply (try_register_absent is_base_of (AddDerivedFn Dep Dep null_factory)
                null_bound).
Defined.

(** [try_add_singleton<Dep>()], then [try_add<Dep, Dep>(fn)]. *)
Lemma try_register_first_wins_witness :
  try_register is_base_of (AddDerivedFn Dep Dep null_factory) tried
  = Some (Ok tt, tried).
Proof.
  by apply (try_register_first_wins is_base_of
              (AddSingleton Dep) (AddDerivedFn Dep Dep null_factory)
              start tried).
Defined.

Lemma constant_retrievals_witness :
  repeat_call 3 (get constructor 1 Base) constant_bound
  = Some (replicate 3 (Ok (VShared (Some 0))), (type_id Base constant_bound).2)
  /\ world (type_id Base constant_bound).2 = world constant_bound.
Proof.
  destruct (constant_retrievals constructor 0 Base constant_bound [] 0
              (CastingComponentProvider Base Derived
                 (InstanceStorage (ConstantFactory Derived (Some 0))))
              Derived (Some 0) 2 eq_refl eq_refl eq_refl eq_refl eq_refl eq_refl)
    as (H1 & H2 & _).
  split; [exact H1|exact H2].
Defined.

Lemma collection_length_witness :
  match get constructor 1 (Vector Base) twice_bound with
  | Some (Ok (VVector ps), _) => length ps = 2
  | _ => False
  end.
Proof.
  destruct (get constructor 1 (Vector Base) twice_bound) as [[[[p|ps]|e] s']|] eqn:H.
  - vm_compute in H. discriminate H.
  - apply (collection_length constructor 1 Base twice_bound ps s' eq_refl H).
  - vm_compute in H. discriminate H.
  - vm_compute in H. discriminate H.
Defined.

Lemma dependency_cycle_no_outcome_witness :
  get Cycle.constructor 7 Cycle.A start = None
  /\ get Cycle.constructor 7 (SharedPtr Cycle.A) start = None.
Proof.
  apply (dependency_cycle_no_outcome Cycle.constructor Cycle.on_cycle 7 Cycle.A start).
  - intros X [-> | ->]; (split; [done|split; [done|]]); eexists _, _;
      (split; [reflexivity|]); [by right|by left].
  - apply well_formed_initial.
  - done.
  - by left.
Defined.

Lemma singletons_shared_witness :
  exists s',
    get constructor 1 (Vector Base) two_singletons
    = Some (Ok (VVector [Some 0; Some 1]), s')
    /\ user (world s') = 2
    /\ get constructor 1 (Vector Base) s' = Some (Ok (VVector [Some 0; Some 1]), s')
    /\ get constructor 1 Base s' = Some (Ok (VShared (Some 1)), s').
Proof.
  destruct (singletons_shared constructor 0 Base two_singletons [0; 1]
              [counting_factory; counting_factory2] eq_refl eq_refl eq_refl eq_refl)
    as (s' & H1 & Hw & H2 & H3).
  - apply (run_handles_distinct constructor is_base_of
             [CallRegister (AddSingletonDerivedFn Base Derived counting_factory);
              CallRegister (AddSingletonDerivedFn Base Derived2 counting_factory2)]
             (mkWorld [] 0) two_singletons eq_refl 0).
    reflexivity.
  - repeat constructor.
    + by exists (CastingComponentProvider Base Derived
                   (SingletonInstanceStorage (FunctionFactory Derived counting_factory) None)),
                Derived.
    + by exists (CastingComponentProvider Base Derived2
                   (SingletonInstanceStorage (FunctionFactory Derived2 counting_factory2) None)),
                Derived2.
  - exists s'. split; [exact H1|]. split; [by rewrite Hw|].
    split; [exact H2|]. exact (H3 (Some 1) eq_refl).
Defined.

Lemma injected_arguments_not_null_witness :
  exists a params args,
    Some 1 = Some a
    /\ constructor Client = Some params
    /\ heap (world (default start (after (get constructor 3 Client) start))) !! a
       = Some (mkObject Client args)
    /\ Forall2 (fun X v =>
                  injectable Client X = true
                  /\ if is_vector X then exists ps, v = VVector ps
                     else exists b, v = VShared (Some b)) params args.
Proof.
  apply (injected_arguments_not_null constructor 2 Client (type_id Client start).2).
  reflexivity.
Defined.

Lemma implicit_retrievals_distinct_witness :
  exists s',
    repeat_call 3 (get constructor 1 Dep) start
    = Some ((fun i => Ok (VShared (Some (0 + i)))) <$> seq 0 3, s')
    /\ length (heap (world s')) = 0 + 3
    /\ m_Registrations s' !! (type_id Dep s').1 = None
    /\ NoDup ((fun i => Some (0 + i)) <$> seq 0 3).
Proof.
  apply (implicit_retrievals_distinct constructor 0 Dep start 2); reflexivity.
Defined.

End MoreScenarios.
